(** * Personal Finance API: token lifecycle and analytics engine

    A shallow embedding of the credential/token code of [app/auth.py] and of
    the analytics code of [app/routers/analytics.py] and
    [app/routers/external.py], with the properties of the specification
    stated and settled against it.

    Conventions of the embedding:
    - Python [float]/[int] amounts are exact rationals ([Q]); comparisons
      and the control flow they drive are the code's, rounding error of
      binary floating point is not modelled.
    - A raised exception is a value of type [exn]; [try]/[except] is
      [try_except].
    - What the code reads from outside (the clock, the [users] table, the
      grouped ledger query, the rate service) is an argument.
    - [datetime] is the record of its calendar fields; the proleptic
      Gregorian arithmetic is CPython's ([_ymd2ord], [_ord2ymd],
      [isocalendar]). *)

From Stdlib Require Import ZArith QArith Qround Qabs Lia Lqa.
From Stdlib Require Import List Bool Permutation Sorted Ascii.
From stdpp Require Import base gmap strings pretty.

Local Open Scope Z_scope.

(** * Part I: the embedding *)

(** ** Calendar arithmetic (the [datetime] module the routers call) *)

Module Calendar.

(** [_is_leap] *)
Definition is_leap (y : Z) : bool :=
  (y mod 4 =? 0) && (negb (y mod 100 =? 0) || (y mod 400 =? 0)).

(** [_days_before_year]: the days before January 1 of [year] *)
Definition days_before_year (year : Z) : Z :=
  let y := year - 1 in
  y * 365 + y / 4 - y / 100 + y / 400.

(** [_DAYS_IN_MONTH], indexed from 1 *)
Definition DAYS_IN_MONTH (m : Z) : Z :=
  match m with
  | 1 => 31 | 2 => 28 | 3 => 31 | 4 => 30 | 5 => 31 | 6 => 30
  | 7 => 31 | 8 => 31 | 9 => 30 | 10 => 31 | 11 => 30 | 12 => 31
  | _ => -1
  end.

(** [_DAYS_BEFORE_MONTH], indexed from 1 *)
Definition DAYS_BEFORE_MONTH (m : Z) : Z :=
  match m with
  | 1 => 0 | 2 => 31 | 3 => 59 | 4 => 90 | 5 => 120 | 6 => 151
  | 7 => 181 | 8 => 212 | 9 => 243 | 10 => 273 | 11 => 304 | 12 => 334
  | _ => -1
  end.

Definition days_in_month (year month : Z) : Z :=
  if (month =? 2) && is_leap year then 29 else DAYS_IN_MONTH month.

Definition days_before_month (year month : Z) : Z :=
  DAYS_BEFORE_MONTH month + (if (2 <? month) && is_leap year then 1 else 0).

(** [_ymd2ord]: the ordinal of a date, January 1 of year 1 being day 1 *)
Definition ymd2ord (year month day : Z) : Z :=
  days_before_year year + days_before_month year month + day.

Definition DI400Y : Z := 146097.
Definition DI100Y : Z := 36524.
Definition DI4Y : Z := 1461.
Definition MAXORDINAL : Z := 3652059.

(** [_ord2ymd]: the date of an ordinal *)
Definition ord2ymd (n : Z) : Z * Z * Z :=
  let n := n - 1 in
  let n400 := n / DI400Y in
  let n := n mod DI400Y in
  let year := n400 * 400 + 1 in
  let n100 := n / DI100Y in
  let n := n mod DI100Y in
  let n4 := n / DI4Y in
  let n := n mod DI4Y in
  let n1 := n / 365 in
  let n := n mod 365 in
  let year := year + (n100 * 100 + n4 * 4 + n1) in
  if (n1 =? 4) || (n100 =? 4) then (year - 1, 12, 31)
  else
    let leapyear := (n1 =? 3) && (negb (n4 =? 24) || (n100 =? 3)) in
    let month := Z.shiftr (n + 50) 5 in
    let preceding :=
      DAYS_BEFORE_MONTH month + (if (2 <? month) && leapyear then 1 else 0) in
    if n <? preceding then
      let month := month - 1 in
      let preceding :=
        preceding - (DAYS_IN_MONTH month
                     + (if (month =? 2) && leapyear then 1 else 0)) in
      (year, month, n - preceding + 1)
    else (year, month, n - preceding + 1).

Record datetime : Type := mk_datetime {
  year : Z; month : Z; day : Z;
  hour : Z; minute : Z; second : Z; microsecond : Z
}.

Definition valid_date (y m d : Z) : bool :=
  (1 <=? y) && (y <=? 9999) && (1 <=? m) && (m <=? 12)
  && (1 <=? d) && (d <=? days_in_month y m).

Definition valid_time (h mi s us : Z) : bool :=
  (0 <=? h) && (h <? 24) && (0 <=? mi) && (mi <? 60)
  && (0 <=? s) && (s <? 60) && (0 <=? us) && (us <? 1000000).

Definition valid_datetime (dt : datetime) : bool :=
  valid_date (year dt) (month dt) (day dt)
  && valid_time (hour dt) (minute dt) (second dt) (microsecond dt).

Definition toordinal (dt : datetime) : Z :=
  ymd2ord (year dt) (month dt) (day dt).

(** Monday is 0, Sunday is 6 *)
Definition weekday (dt : datetime) : Z := (toordinal dt + 6) mod 7.

(** [dt.replace(hour=0, minute=0, second=0, microsecond=0)] *)
Definition replace_midnight (dt : datetime) : datetime :=
  mk_datetime (year dt) (month dt) (day dt) 0 0 0 0.

(** [dt - timedelta(days=k)]; [None] is Python's [OverflowError] *)
Definition sub_days (dt : datetime) (k : Z) : option datetime :=
  let n := toordinal dt - k in
  if (1 <=? n) && (n <=? MAXORDINAL) then
    let '(y, m, d) := ord2ymd n in
    Some (mk_datetime y m d (hour dt) (minute dt) (second dt) (microsecond dt))
  else None.

(** [_isoweek1monday]: the ordinal of the Monday that starts ISO week 1 *)
Definition isoweek1monday (year : Z) : Z :=
  let firstday := ymd2ord year 1 1 in
  let firstweekday := (firstday + 6) mod 7 in
  let week1monday := firstday - firstweekday in
  if 3 <? firstweekday then week1monday + 7 else week1monday.

(** [date.isocalendar()]: ISO year, ISO week, ISO weekday *)
Definition isocalendar (dt : datetime) : Z * Z * Z :=
  let y := year dt in
  let week1monday := isoweek1monday y in
  let today := toordinal dt in
  let week := (today - week1monday) / 7 in
  let wd := (today - week1monday) mod 7 in
  if week <? 0 then
    let y := y - 1 in
    let week1monday := isoweek1monday y in
    ((y, (today - week1monday) / 7 + 1), (today - week1monday) mod 7 + 1)
  else if (52 <=? week) && (isoweek1monday (y + 1) <=? today) then
    ((y + 1, 1), wd + 1)
  else ((y, week + 1), wd + 1).

(** Bounded universal check over [z, z+1, ..., z+n-1]. *)
Fixpoint all_from (f : Z -> bool) (n : nat) (z : Z) : bool :=
  match n with
  | O => true
  | S n' => if f z then all_from f n' (z + 1) else false
  end.

(** day [r] (from 0) of the 400-year cycle: [_ord2ymd] gives a calendar
    date of years 1 to 400 that [_ymd2ord] maps back *)
Definition cycle_ok (r : Z) : bool :=
  let '(y, m, d) := ord2ymd (r + 1) in
  (ymd2ord y m d =? r + 1) && (1 <=? y) && (y <=? 400)
  && (1 <=? m) && (m <=? 12) && (1 <=? d) && (d <=? days_in_month y m).

(** the month and day of the [n]-th day (from 0) of a year, as [_ord2ymd]
    finds them from its estimate [(n + 50) >> 5] *)
Definition month_day (n : Z) (leapyear : bool) : Z * Z :=
  let month := Z.shiftr (n + 50) 5 in
  let preceding :=
    DAYS_BEFORE_MONTH month + (if (2 <? month) && leapyear then 1 else 0) in
  if n <? preceding then
    let month := month - 1 in
    let preceding :=
      preceding - (DAYS_IN_MONTH month
                   + (if (month =? 2) && leapyear then 1 else 0)) in
    (month, n - preceding + 1)
  else (month, n - preceding + 1).

Definition month_day_ok (leapyear : bool) (n : Z) : bool :=
  let '(m, d) := month_day n leapyear in
  (1 <=? m) && (m <=? 12) && (1 <=? d)
  && (d <=? (if (m =? 2) && leapyear then 29 else DAYS_IN_MONTH m))
  && (DAYS_BEFORE_MONTH m + (if (2 <? m) && leapyear then 1 else 0) + d =? n + 1).

End Calendar.

(** ** Period Window Calculator

    The start-date computation, written out twice in the source with the
    same text: in [get_category_breakdown] (analytics.py) and in
    [get_transaction_summary] (external.py). The clock reading [now] is its
    argument. *)

Module PeriodWindow.
Import Calendar.

Definition start_date (period : string) (now : datetime) : option datetime :=
  if String.eqb period "day" then
    Some (replace_midnight now)
  else if String.eqb period "week" then
    match sub_days now (weekday now) with
    | Some start => Some (replace_midnight start)
    | None => None
    end
  else if String.eqb period "month" then
    Some (mk_datetime (year now) (month now) 1 0 0 0 0)
  else
    Some (mk_datetime (year now) 1 1 0 0 0 0).

Definition at_midnight (dt : datetime) : Prop :=
  hour dt = 0 /\ minute dt = 0 /\ second dt = 0 /\ microsecond dt = 0.

(** [s] is the Monday on or before [now] *)
Definition monday_on_or_before (s now : datetime) : Prop :=
  weekday s = 0 /\ toordinal s <= toordinal now < toordinal s + 7.

End PeriodWindow.

(** ** Exceptions

    Python exceptions as values; a computation either returns or raises. *)

Module Exn.

Inductive exn : Type :=
| HTTPException (status_code : Z) (detail : string)
                (headers : list (string * string))
| JWTError (msg : string)
| ValidationError (msg : string)
| RequestError (msg : string)
| JSONDecodeError (msg : string).

Inductive result (A : Type) : Type :=
| Return (a : A)
| Raise (e : exn).
Arguments Return {A} a.
Arguments Raise {A} e.

Definition bind {A B} (m : result A) (k : A -> result B) : result B :=
  match m with
  | Return a => k a
  | Raise e => Raise e
  end.

(** [try: body / except cls: handler], where [catches] selects the
    exceptions of class [cls] *)
Definition try_except {A} (body : result A) (catches : exn -> bool)
    (handler : exn -> result A) : result A :=
  match body with
  | Return a => Return a
  | Raise e => if catches e then handler e else Raise e
  end.

(** every constructor of [exn] is a subclass of Python's [Exception] *)
Definition is_Exception (e : exn) : bool := true.

Definition is_JWTError (e : exn) : bool :=
  match e with JWTError _ => true | _ => false end.

Definition HTTP_400_BAD_REQUEST : Z := 400.
Definition HTTP_401_UNAUTHORIZED : Z := 401.
Definition HTTP_500_INTERNAL_SERVER_ERROR : Z := 500.
Definition HTTP_503_SERVICE_UNAVAILABLE : Z := 503.

End Exn.

Declare Scope exn_scope.
Delimit Scope exn_scope with exn.
Notation "'do' x <- m ; k" := (Exn.bind m (fun x => k))
  (at level 10, x name, m at level 100, k at level 200) : exn_scope.

(** ** Token Codec and Principal Resolver ([app/auth.py]) *)

Module Auth.
Import Exn.
Local Open Scope exn_scope.

(** [app/core/config.py], the fields the token code reads *)
Record Settings : Type := {
  secret_key : string;
  algorithm : string;
  access_token_expire_minutes : Z
}.

Definition default_settings : Settings :=
  {| secret_key := "your-secret-key-change-in-production";
     algorithm := "HS256";
     access_token_expire_minutes := 30 |}.

(** a claim value of a token payload *)
Inductive claim : Type :=
| ClaimStr (s : string)
| ClaimInt (z : Z).

(** Modelled from the spec: the JWT library ([jose.jwt]) is not part of the
    repository. A token string is either malformed, or the serialisation of
    a payload signed under a key with a named algorithm. *)
Inductive token : Type :=
| Malformed (raw : string)
| Jws (alg : string) (key : string) (claims : gmap string claim).

(** Modelled from the spec: [jwt.encode] signs the payload under the key
    with the named algorithm. *)
Definition jwt_encode (claims : gmap string claim) (key : string)
    (alg : string) : token :=
  Jws alg key claims.

(** Modelled from the spec: [jwt.decode] returns the payload only if the
    algorithm is among the accepted ones, the signature verifies under the
    key, the payload is well formed and the current time is strictly before
    the embedded expiry; everything else is a [JWTError]. Instants are whole
    seconds. *)
Definition jwt_decode (tok : token) (key : string) (algorithms : list string)
    (now : Z) : result (gmap string claim) :=
  match tok with
  | Malformed _ => Raise (JWTError "Error decoding token")
  | Jws alg k claims =>
    if negb (existsb (String.eqb alg) algorithms) then
      Raise (JWTError "The specified alg value is not allowed")
    else if negb (String.eqb k key) then
      Raise (JWTError "Signature verification failed")
    else
      match claims !! "exp" with
      | Some (ClaimInt exp) =>
        if now <? exp then
          match claims !! "sub" with
          | Some (ClaimInt _) => Raise (JWTError "Subject must be a string")
          | _ => Return claims
          end
        else Raise (JWTError "Signature has expired")
      | _ => Raise (JWTError "Invalid expiration claim")
      end
  end.

Inductive TokenData : Type := mk_TokenData (username : option string).

Definition token_username (td : TokenData) : option string :=
  match td with mk_TokenData u => u end.

(** a row of the [users] table, the columns the resolver reads *)
Record User : Type := {
  id : Z;
  username : string;
  hashed_password : string;
  is_active : option bool
}.

Definition credentials_exception : exn :=
  HTTPException HTTP_401_UNAUTHORIZED "Could not validate credentials"
                [("WWW-Authenticate", "Bearer")].

(** [db.query(User).filter(User.username == name).first()] *)
Definition query_user_first (db : list User) (name : option string)
  : option User :=
  match name with
  | Some n => List.find (fun u => String.eqb (username u) n) db
  | None => None
  end.

(** [x is False] *)
Definition is_False (b : option bool) : bool :=
  match b with Some false => true | _ => false end.

Section WithSettings.
Variable settings : Settings.

(** [datetime.utcnow()] is the argument [now]; a [timedelta] is a number of
    seconds. [if expires_delta:] is Python truthiness: [None] and the zero
    duration both take the [else] branch. *)
Definition create_access_token (data : gmap string claim)
    (expires_delta : option Z) (now : Z) : token :=
  let to_encode := data in
  let expire :=
    match expires_delta with
    | Some delta =>
      if negb (delta =? 0) then now + delta
      else now + 60 * access_token_expire_minutes settings
    | None => now + 60 * access_token_expire_minutes settings
    end in
  let to_encode := <["exp" := ClaimInt expire]> to_encode in
  jwt_encode to_encode (secret_key settings) (algorithm settings).

Definition verify_token (tok : token) (now : Z) : result (option TokenData) :=
  try_except
    (do payload <- jwt_decode tok (secret_key settings) [algorithm settings] now;
     match payload !! "sub" with
     | None => Return None
     | Some (ClaimStr username) => Return (Some (mk_TokenData (Some username)))
     | Some (ClaimInt _) => Raise (ValidationError "username: str type expected")
     end)
    is_JWTError
    (fun e => Return None).

Definition get_current_user (credentials : token) (db : list User) (now : Z)
  : result User :=
  try_except
    (do token_data <- verify_token credentials now;
     match token_data with
     | None => Raise credentials_exception
     | Some token_data =>
       match query_user_first db (token_username token_data) with
       | None => Raise credentials_exception
       | Some user =>
         if is_False (is_active user) then
           Raise (HTTPException HTTP_400_BAD_REQUEST "Inactive user" [])
         else Return user
       end
     end)
    is_Exception
    (fun e => Raise credentials_exception).

Definition get_current_active_user (current_user : User) : result User :=
  if is_False (is_active current_user) then
    Raise (HTTPException HTTP_400_BAD_REQUEST "Inactive user" [])
  else Return current_user.

(** the dependency chain [Depends(get_current_active_user)] of the routers *)
Definition resolve (credentials : token) (db : list User) (now : Z)
  : result User :=
  do current_user <- get_current_user credentials db now;
  get_current_active_user current_user.

End WithSettings.

Definition alice_claims : gmap string claim := {[ "sub" := ClaimStr "alice" ]}.

Definition alice_inactive : User :=
  {| id := 1; username := "alice"; hashed_password := "$2b$12$hash";
     is_active := Some false |}.

End Auth.

(** ** Numbers

    Python's [sum] and [round(x, 2)] on exact rationals. The code adds and
    divides binary floating point numbers, where a sum depends on the order
    of its terms and a quotient is rounded; what is stated below of sums and
    quotients is meant up to that rounding. *)

Module Num.
Local Open Scope Q_scope.

(** [sum(xs)]: left to right, from 0; exact here, rounded at every
    addition in the code, where the order of the terms can change the last
    digits *)
Definition sum (xs : list Q) : Q := fold_left Qplus xs 0.

(** [x < y] *)
Definition Qltb (x y : Q) : bool := negb (Qle_bool y x).

(** round half to even, to an integer *)
Definition round_half_even (x : Q) : Z :=
  let f := Qfloor x in
  match Qcompare (x - inject_Z f) (1 # 2) with
  | Lt => f
  | Gt => (f + 1)%Z
  | Eq => if Z.even f then f else (f + 1)%Z
  end.

(** [round(x, 2)] *)
Definition round2 (x : Q) : Q := inject_Z (round_half_even (x * 100)) / 100.

End Num.

(** ** Budget Progress Evaluator ([get_budget_progress], per budget) *)

Module Budget.
Import Num.
Local Open Scope Q_scope.

(** [(spent_amount / budget_amount * 100) if budget_amount > 0 else 0];
    the quotient is exact here and rounded to a float in the code *)
Definition progress_percentage (spent_amount budget_amount : Q) : Q :=
  if Qltb 0 budget_amount then spent_amount / budget_amount * 100 else 0.

Definition budget_status (progress_percentage : Q) : string :=
  if Qle_bool 100 progress_percentage then "exceeded"
  else if Qle_bool 80 progress_percentage then "warning"
  else "good".

Record budget_entry : Type := {
  budget_amount : Q;
  spent_amount : Q;
  remaining_amount : Q;
  entry_progress_percentage : Q;
  status : string
}.

(** the body of the loop over the active budgets, from the budget's amount
    and the amount the ledger query found spent *)
Definition budget_progress_entry (budget_amount spent_amount : Q)
  : budget_entry :=
  let remaining_amount := budget_amount - spent_amount in
  let progress_percentage := progress_percentage spent_amount budget_amount in
  let budget_status := budget_status progress_percentage in
  {| budget_amount := budget_amount;
     spent_amount := spent_amount;
     remaining_amount := remaining_amount;
     entry_progress_percentage := round2 progress_percentage;
     status := budget_status |}.

End Budget.

(** ** Category Aggregator ([get_category_breakdown], after the query) *)

Module Category.
Import Num.
Local Open Scope Q_scope.

(** a row of the grouped query: [category], [sum(amount)], [count(id)] *)
Record category_row : Type := {
  row_category : option string;
  row_total_amount : Q;
  row_transaction_count : Z
}.

Record breakdown_entry : Type := {
  category : string;
  total_amount : Q;
  transaction_count : Z;
  percentage : Q;
  color : string
}.

Record category_breakdown : Type := {
  total_expenses : Q;
  category_count : Z;
  breakdown : list breakdown_entry
}.

Definition get_category_color (category : string) : string :=
  let colors :=
    [("Food", "#FF6B6B"); ("Transportation", "#4ECDC4");
     ("Entertainment", "#45B7D1"); ("Shopping", "#96CEB4");
     ("Bills", "#FFEAA7"); ("Healthcare", "#DDA0DD");
     ("Education", "#98D8C8"); ("Travel", "#F7DC6F");
     ("Uncategorized", "#BDC3C7")] in
  match List.find (fun kv => String.eqb (fst kv) category) colors with
  | Some kv => snd kv
  | None => "#BDC3C7"
  end.

(** [xs.sort(key=key, reverse=True)]: descending by key, equal keys in
    their original order *)
Section Sort.
Context {A : Type} (key : A -> Q).

Fixpoint insert_desc (x : A) (l : list A) : list A :=
  match l with
  | [] => [x]
  | y :: ys =>
    if Qltb (key x) (key y) then y :: insert_desc x ys else x :: y :: ys
  end.

Definition sort_reverse (l : list A) : list A := fold_right insert_desc [] l.

Definition desc (a b : A) : Prop := key b <= key a.


End Sort.

Definition total_expenses_of (transactions : list category_row) : Q :=
  sum (map row_total_amount transactions).

(** [x or "Uncategorized"] *)
Definition or_Uncategorized (c : option string) : string :=
  match c with
  | None => "Uncategorized"
  | Some EmptyString => "Uncategorized"
  | Some s => s
  end.

Definition raw_percentage (total_expenses : Q) (transaction : category_row) : Q :=
  if Qltb 0 total_expenses
  then row_total_amount transaction / total_expenses * 100
  else 0.

(** the body of the loop over the grouped rows *)
Definition breakdown_entry_of (total_expenses : Q) (transaction : category_row)
  : breakdown_entry :=
  let category := or_Uncategorized (row_category transaction) in
  let percentage := raw_percentage total_expenses transaction in
  {| category := category;
     total_amount := row_total_amount transaction;
     transaction_count := row_transaction_count transaction;
     percentage := round2 percentage;
     color := get_category_color category |}.

(** from the rows of the grouped query to the sorted breakdown *)
Definition get_category_breakdown (transactions : list category_row)
  : category_breakdown :=
  let total_expenses := total_expenses_of transactions in
  let breakdown := map (breakdown_entry_of total_expenses) transactions in
  let breakdown := sort_reverse total_amount breakdown in
  {| total_expenses := total_expenses;
     category_count := Z.of_nat (length breakdown);
     breakdown := breakdown |}.




Definition refund_row : category_row :=
  {| row_category := Some "Food"; row_total_amount := -10;
     row_transaction_count := 1 |}.

Definition three_rows : list category_row :=
  [ {| row_category := Some "Food"; row_total_amount := 1;
       row_transaction_count := 1 |};
    {| row_category := None; row_total_amount := 1;
       row_transaction_count := 2 |};
    {| row_category := Some "Bills"; row_total_amount := 1;
       row_transaction_count := 1 |} ].

End Category.

(** ** Generic Transform Engine ([transform_summarize], [transform_aggregate])

    A transaction-like record carries each of its four fields or not; a
    field that is present holds a value of its JSON type. *)

Module Transform.
Import Num Calendar.

Record transaction : Type := {
  amount : option Q;
  type : option string;
  category : option string;
  date : option string
}.

(** the request body: [data["transactions"]], [data.get("period")] *)
Record data : Type := {
  transactions : option (list transaction);
  period : option string
}.

(** a result dictionary, or the [{"error": ...}] payload *)
Inductive payload (A : Type) : Type :=
| Error (error : string)
| Result (a : A).
Arguments Error {A} error.
Arguments Result {A} a.

(** [t.get("amount", 0)] *)
Definition get_amount (t : transaction) : Q := default 0%Q (amount t).

(** [t.get("type") == kind] *)
Definition type_is (kind : string) (t : transaction) : bool :=
  match type t with
  | Some ty => String.eqb ty kind
  | None => false
  end.

Record summary : Type := {
  total_transactions : Z;
  total_income : Q;
  total_expenses : Q;
  net_amount : Q;
  average_transaction : Q
}.

Definition transform_summarize (d : data) : payload summary :=
  match transactions d with
  | None => Error "No transactions data provided"
  | Some transactions =>
    let total_income :=
      sum (map get_amount (List.filter (type_is "income") transactions)) in
    let total_expenses :=
      sum (map get_amount (List.filter (type_is "expense") transactions)) in
    Result
      {| total_transactions := Z.of_nat (length transactions);
         total_income := total_income;
         total_expenses := total_expenses;
         net_amount := (total_income - total_expenses)%Q;
         average_transaction :=
           match transactions with
           | [] => 0%Q
           | _ => ((total_income + total_expenses)
                   / inject_Z (Z.of_nat (length transactions)))%Q
           end |}
  end.

(** summarize in the words of the specification: what one record adds to
    the total of [kind] is its amount, 0 for a missing amount, and nothing
    when its type is missing or of another kind *)
Definition contribution (kind : string) (t : transaction) : Q :=
  match type t with
  | Some ty =>
    if String.eqb ty kind then
      match amount t with Some a => a | None => 0%Q end
    else 0%Q
  | None => 0%Q
  end.

Fixpoint spec_total (kind : string) (ts : list transaction) : Q :=
  match ts with
  | [] => 0%Q
  | t :: rest => (contribution kind t + spec_total kind rest)%Q
  end.

Record bucket : Type := { income : Q; expenses : Q; count : Z }.

Definition empty_bucket : bucket := {| income := 0; expenses := 0; count := 0 |}.

Definition digit (d : Z) : ascii := ascii_of_N (48 + Z.to_N d).

(** a number in exactly two decimal digits *)
Definition zfill2 (n : Z) : string :=
  String (digit (n / 10 mod 10)) (String (digit (n mod 10)) "").

(** [date_str.replace("Z", "+00:00")] *)
Fixpoint replace_Z (s : string) : string :=
  match s with
  | EmptyString => EmptyString
  | String c rest =>
    if Ascii.eqb c "Z"%char then "+00:00" +:+ replace_Z rest
    else String c (replace_Z rest)
  end.

(** the bucket key of a date; [strftime] hands [%Y] to the C library,
    which prints the year without padding (year 999 gives [999-01-05]),
    [%m] and [%d] are two digits, [str] and the f-string print a number as
    it is; [isocalendar()[1]] is the ISO week *)
Definition period_key (period : string) (date : datetime) : string :=
  if String.eqb period "day" then
    pretty (year date) +:+ "-" +:+ zfill2 (month date) +:+ "-" +:+ zfill2 (day date)
  else if String.eqb period "week" then
    pretty (year date) +:+ "-W" +:+ pretty (snd (fst (isocalendar date)))
  else if String.eqb period "month" then
    pretty (year date) +:+ "-" +:+ zfill2 (month date)
  else
    pretty (year date).

Definition add_income (a : Q) (b : bucket) : bucket :=
  {| income := (income b + a)%Q; expenses := expenses b; count := count b |}.
Definition add_expenses (a : Q) (b : bucket) : bucket :=
  {| income := income b; expenses := (expenses b + a)%Q; count := count b |}.
Definition add_count (b : bucket) : bucket :=
  {| income := income b; expenses := expenses b; count := count b + 1 |}.

(** what the loop body does to the bucket of a record it keeps *)
Definition add_record (t : transaction) (b : bucket) : bucket :=
  if String.eqb (default "expense" (type t)) "income"
  then add_count (add_income (get_amount t) b)
  else add_count (add_expenses (get_amount t) b).

Record aggregation : Type := {
  aggregated_data : gmap string bucket;
  result_period : string
}.

Section Aggregate.

(** [datetime.fromisoformat]; [None] stands for its [ValueError] *)
Variable fromisoformat : string -> option datetime.

(** the body of the loop over the transactions; [continue] leaves
    [aggregated] as it is *)
Definition aggregate_step (period : string) (aggregated : gmap string bucket)
    (transaction : transaction) : gmap string bucket :=
  let date_str := default "" (date transaction) in
  if String.eqb date_str "" then aggregated
  else
    match fromisoformat (replace_Z date_str) with
    | None => aggregated
    | Some date =>
      let key := period_key period date in
      let aggregated :=
        match aggregated !! key with
        | None => <[key := empty_bucket]> aggregated
        | Some _ => aggregated
        end in
      let amount := get_amount transaction in
      let transaction_type := default "expense" (type transaction) in
      let aggregated :=
        if String.eqb transaction_type "income"
        then alter (add_income amount) key aggregated
        else alter (add_expenses amount) key aggregated in
      alter add_count key aggregated
    end.

Definition transform_aggregate (d : data) : payload aggregation :=
  match transactions d with
  | None => Error "No transactions data provided"
  | Some transactions =>
    let period := default "month" (period d) in
    Result {| aggregated_data :=
                fold_left (aggregate_step period) transactions ∅;
              result_period := period |}
  end.

(** the date a record is bucketed by, when it has one that parses *)
Definition parsed_date (t : transaction) : option datetime :=
  match date t with
  | None => None
  | Some s => if String.eqb s "" then None else fromisoformat (replace_Z s)
  end.

(** the records that land in bucket [k] *)
Definition lands_in (period k : string) (t : transaction) : bool :=
  match parsed_date t with
  | Some d => String.eqb (period_key period d) k
  | None => false
  end.

End Aggregate.

(** the date-only form [YYYY-MM-DD] of [datetime.fromisoformat], for the
    worked examples *)
Definition digit_value (c : ascii) : option Z :=
  let n := Z.of_N (N_of_ascii c) in
  if (48 <=? n) && (n <=? 57) then Some (n - 48) else None.

Definition fromisoformat_date_only (s : string) : option datetime :=
  match s with
  | String y1 (String y2 (String y3 (String y4 (String s1
      (String m1 (String m2 (String s2 (String d1 (String d2 EmptyString))))))))) =>
    if Ascii.eqb s1 "-"%char && Ascii.eqb s2 "-"%char then
      match digit_value y1, digit_value y2, digit_value y3, digit_value y4,
            digit_value m1, digit_value m2, digit_value d1, digit_value d2 with
      | Some a, Some b, Some c, Some d, Some e, Some f, Some g, Some h =>
        let y := 1000 * a + 100 * b + 10 * c + d in
        let m := 10 * e + f in
        let dd := 10 * g + h in
        if valid_date y m dd then Some (mk_datetime y m dd 0 0 0 0) else None
      | _, _, _, _, _, _, _, _ => None
      end
    else None
  | _ => None
  end.

Definition record (a : Q) (ty : option string) (d : option string) : transaction :=
  {| amount := Some a; type := ty; category := None; date := d |}.


Definition new_year_weeks : list transaction :=
  [ record 10 (Some "expense") (Some "2024-01-01");
    record 20 (Some "expense") (Some "2024-12-30") ].

End Transform.

(** ** Currency conversion ([convert_currency]) *)

Module Currency.
Import Exn Num.
Local Open Scope exn_scope.

(** the JSON document of the rate service: [data.get("rates")],
    [data.get("date")] *)
Record rates_document : Type := {
  rates : option (gmap string Q);
  date : option string
}.

(** an HTTP response; [json] is [response.json()], which raises on a body
    that is not JSON *)
Record response : Type := {
  status_code : Z;
  json : result rates_document
}.

Record conversion : Type := {
  original_amount : Q;
  original_currency : string;
  converted_amount : Q;
  target_currency : string;
  conversion_rate : Q;
  last_updated : option string
}.

Definition upper_ascii (c : ascii) : ascii :=
  let n := N_of_ascii c in
  if ((97 <=? n) && (n <=? 122))%N then ascii_of_N (n - 32) else c.

(** [s.upper()] of a string of ASCII characters: the letters [a] to [z]
    go to [A] to [Z], every other character stays. A string here is a
    string of bytes; outside ASCII [str.upper] follows the Unicode tables,
    which are not modelled, so what is stated of every code is stated of
    codes that satisfy [isascii]. *)
Fixpoint upper (s : string) : string :=
  match s with
  | EmptyString => EmptyString
  | String c rest => String (upper_ascii c) (upper rest)
  end.

(** [s.isascii()] *)
Fixpoint isascii (s : string) : bool :=
  match s with
  | EmptyString => true
  | String c rest => (N_of_ascii c <? 128)%N && isascii rest
  end.

(** [settings.currency_api_url] *)
Definition currency_api_url : string :=
  "https://api.exchangerate-api.com/v4/latest".

Definition internal_server_error : exn :=
  HTTPException HTTP_500_INTERNAL_SERVER_ERROR "Internal server error" [].

Section WithClient.

(** [await client.get(url)]: the response, or the exception of a request
    that could not be made *)
Variable client_get : string -> result response.

Definition convert_currency (amount : Q) (from_currency to_currency : string)
  : result conversion :=
  try_except
    (do response <- client_get (currency_api_url +:+ "/" +:+ upper from_currency);
     if negb (status_code response =? 200) then
       Raise (HTTPException HTTP_503_SERVICE_UNAVAILABLE
                "Currency conversion service unavailable" [])
     else
       do data <- json response;
       let rates := default ∅ (rates data) in
       match rates !! upper to_currency with
       | None =>
         Raise (HTTPException HTTP_400_BAD_REQUEST
                  ("Currency " +:+ to_currency +:+ " not supported") [])
       | Some conversion_rate =>
         let converted_amount := (amount * conversion_rate)%Q in
         Return {| original_amount := amount;
                   original_currency := upper from_currency;
                   converted_amount := round2 converted_amount;
                   target_currency := upper to_currency;
                   conversion_rate := conversion_rate;
                   last_updated := date data |}
       end)
    is_Exception
    (fun e => Raise internal_server_error).

End WithClient.

Definition euro_rates : rates_document :=
  {| rates := Some {[ "EUR" := (9 # 10)%Q ]}; date := Some "2024-01-05" |}.

(** the rate service is down *)
Definition service_down (url : string) : result response :=
  Return {| status_code := 503;
            json := Raise (JSONDecodeError "Expecting value") |}.

(** the rate service answers with the euro rate only *)
Definition service_up (url : string) : result response :=
  Return {| status_code := 200; json := Return euro_rates |}.

End Currency.

(** ** Settings and users of the worked examples *)

Module Principals.
Import Auth.

Definition other_settings : Settings :=
  {| secret_key := "another-secret"; algorithm := "HS256";
     access_token_expire_minutes := 30 |}.

Definition alice_active : User :=
  {| id := 1; username := "alice"; hashed_password := "$2b$12$hash";
     is_active := Some true |}.

Definition bob_unflagged : User :=
  {| id := 2; username := "alice"; hashed_password := "$2b$12$hash";
     is_active := None |}.

End Principals.

(** ** Handlers of the routers

    [try: body / except HTTPException: raise / except Exception: 500]. *)

Module Handlers.
Import Exn.

Definition is_HTTPException (e : exn) : bool :=
  match e with HTTPException _ _ _ => true | _ => false end.

Definition HTTP_404_NOT_FOUND : Z := 404.

Definition internal_server_error : exn :=
  HTTPException HTTP_500_INTERNAL_SERVER_ERROR "Internal server error" [].

(** the two [except] clauses of the routers that re-raise: an
    [HTTPException] passes, anything else becomes the 500 *)
Definition reraise_http {A} (body : result A) : result A :=
  match body with
  | Return a => Return a
  | Raise e => if is_HTTPException e then Raise e
               else if is_Exception e then Raise internal_server_error
               else Raise e
  end.

End Handlers.

(** ** The ledger ([app/routers/external.py])

    The [transactions] table is the list of its rows; a request takes the
    table and gives its answer and the table after it. *)

Module Ledger.
Import Calendar Exn Num Handlers.

(** the position of a datetime in time, in microseconds; [date >= start]
    of the queries compares positions *)
Definition timestamp (dt : datetime) : Z :=
  (((toordinal dt * 24 + hour dt) * 60 + minute dt) * 60 + second dt) * 1000000
  + microsecond dt.

Definition dt_leb (a b : datetime) : bool := timestamp a <=? timestamp b.

(** a row of [transactions], without its audit timestamps *)
Record Transaction : Type := {
  id : Z;
  user_id : Z;
  amount : Q;
  currency : option string;
  description : string;
  category : option string;
  transaction_type : string;
  date : datetime
}.

(** a validated [TransactionCreate] body *)
Record TransactionCreate : Type := {
  new_amount : Q;
  new_currency : string;
  new_description : string;
  new_category : option string;
  new_transaction_type : string;
  new_date : datetime
}.

(** a field of a [TransactionUpdate] body: absent from the request, or
    sent, possibly as [null] *)
Inductive sent (A : Type) : Type :=
| Unset
| Sent (v : option A).
Arguments Unset {A}.
Arguments Sent {A} v.

Record TransactionUpdate : Type := {
  upd_amount : sent Q;
  upd_currency : sent string;
  upd_description : sent string;
  upd_category : sent string;
  upd_transaction_type : sent string;
  upd_date : sent datetime
}.

(** the key the store gives a new row: one more than the largest key *)
Definition next_id (db : list Transaction) : Z :=
  1 + fold_right Z.max 0 (map id db).

Definition create_transaction (transaction : TransactionCreate)
    (current_user : Auth.User) (db : list Transaction)
  : result Transaction * list Transaction :=
  let db_transaction :=
    {| id := next_id db;
       user_id := Auth.id current_user;
       amount := new_amount transaction;
       currency := Some (new_currency transaction);
       description := new_description transaction;
       category := new_category transaction;
       transaction_type := new_transaction_type transaction;
       date := new_date transaction |} in
  (Return db_transaction, db ++ [db_transaction]).

(** [filter(Transaction.id == transaction_id,
            Transaction.user_id == current_user.id)] *)
Definition owned (transaction_id : Z) (current_user : Auth.User)
    (t : Transaction) : bool :=
  (id t =? transaction_id) && (user_id t =? Auth.id current_user).

Definition not_found : exn :=
  HTTPException HTTP_404_NOT_FOUND "Transaction not found" [].

Definition get_transaction (transaction_id : Z) (current_user : Auth.User)
    (db : list Transaction) : result Transaction :=
  reraise_http
    (match List.find (owned transaction_id current_user) db with
     | None => Raise not_found
     | Some transaction => Return transaction
     end).

(** [setattr] of one sent field; [None] when a column that is not nullable
    would be set to [null] *)
Definition set_required {A} (f : sent A) (old : A) : option A :=
  match f with
  | Unset => Some old
  | Sent (Some v) => Some v
  | Sent None => None
  end.

Definition set_nullable {A} (f : sent A) (old : option A) : option A :=
  match f with
  | Unset => old
  | Sent v => v
  end.

(** the row after the loop over [update_data]; [None] when the commit
    fails on a [null] in a required column *)
Definition apply_update (u : TransactionUpdate) (t : Transaction)
  : option Transaction :=
  match set_required (upd_amount u) (amount t),
        set_required (upd_description u) (description t),
        set_required (upd_transaction_type u) (transaction_type t),
        set_required (upd_date u) (date t) with
  | Some a, Some d, Some ty, Some dt =>
    Some {| id := id t; user_id := user_id t; amount := a;
            currency := set_nullable (upd_currency u) (currency t);
            description := d;
            category := set_nullable (upd_category u) (category t);
            transaction_type := ty; date := dt |}
  | _, _, _, _ => None
  end.

(** the table with the first row [sel] selects replaced by [f] of it *)
Fixpoint replace_first (sel : Transaction -> bool) (new : Transaction)
    (db : list Transaction) : list Transaction :=
  match db with
  | [] => []
  | t :: rest => if sel t then new :: rest else t :: replace_first sel new rest
  end.

Fixpoint remove_first (sel : Transaction -> bool) (db : list Transaction)
  : list Transaction :=
  match db with
  | [] => []
  | t :: rest => if sel t then rest else t :: remove_first sel rest
  end.

Definition update_transaction (transaction_id : Z)
    (transaction_update : TransactionUpdate) (current_user : Auth.User)
    (db : list Transaction) : result Transaction * list Transaction :=
  match List.find (owned transaction_id current_user) db with
  | None => (reraise_http (Raise not_found), db)
  | Some transaction =>
    match apply_update transaction_update transaction with
    | Some updated =>
      (Return updated,
       replace_first (owned transaction_id current_user) updated db)
    | None =>
      (* the commit raises, [except Exception] rolls back *)
      (Raise internal_server_error, db)
    end
  end.

Definition delete_transaction (transaction_id : Z) (current_user : Auth.User)
    (db : list Transaction) : result string * list Transaction :=
  match List.find (owned transaction_id current_user) db with
  | None => (reraise_http (Raise not_found), db)
  | Some transaction =>
    (Return "Transaction deleted successfully",
     remove_first (owned transaction_id current_user) db)
  end.

(** [if s:] on an optional string *)
Definition truthy (s : option string) : option string :=
  match s with
  | Some EmptyString => None
  | other => other
  end.

Definition eq_opt (a : option string) (b : string) : bool :=
  match a with Some x => String.eqb x b | None => false end.

(** the filters of [get_transactions], in the order they are applied *)
Definition matches (transaction_type category : option string)
    (start_date end_date : option datetime) (current_user : Auth.User)
    (t : Transaction) : bool :=
  (user_id t =? Auth.id current_user)
  && match truthy transaction_type with
     | Some ty => String.eqb (Ledger.transaction_type t) ty
     | None => true
     end
  && match truthy category with
     | Some c => eq_opt (Ledger.category t) c
     | None => true
     end
  && match start_date with
     | Some s => dt_leb s (date t)
     | None => true
     end
  && match end_date with
     | Some e => dt_leb (date t) e
     | None => true
     end.

Definition date_key (t : Transaction) : Q := inject_Z (timestamp (date t)).

(** [order_by(Transaction.date.desc())] is [Category.sort_reverse] on the
    date; rows of one date come in table order *)
Definition get_transactions (skip limit : Z)
    (transaction_type category : option string)
    (start_date end_date : option datetime) (current_user : Auth.User)
    (db : list Transaction) : result (list Transaction) :=
  let query :=
    List.filter (matches transaction_type category start_date end_date
                         current_user) db in
  let query := Category.sort_reverse date_key query in
  Return (firstn (Z.to_nat limit) (skipn (Z.to_nat skip) query)).

Record period_summary : Type := {
  summary_period : string;
  summary_start_date : datetime;
  total_income : Q;
  total_expenses : Q;
  net_amount : Q;
  transaction_count : Z;
  summary_currency : string
}.

Definition has_type (kind : string) (t : Transaction) : bool :=
  String.eqb (transaction_type t) kind.

(** the rows of the user on or after [start] *)
Definition since (start : datetime) (current_user : Auth.User)
    (db : list Transaction) : list Transaction :=
  List.filter (fun t => (user_id t =? Auth.id current_user)
                        && dt_leb start (date t)) db.

Definition get_transaction_summary (period : string)
    (current_user : Auth.User) (now : datetime) (db : list Transaction)
  : result period_summary :=
  match PeriodWindow.start_date period now with
  | None =>
    (* the subtraction raises, [except Exception] answers *)
    Raise internal_server_error
  | Some start_date =>
    let transactions := since start_date current_user db in
    let total_income :=
      sum (map amount (List.filter (has_type "income") transactions)) in
    let total_expenses :=
      sum (map amount (List.filter (has_type "expense") transactions)) in
    let net_amount := (total_income - total_expenses)%Q in
    Return {| summary_period := period;
              summary_start_date := start_date;
              total_income := total_income;
              total_expenses := total_expenses;
              net_amount := net_amount;
              transaction_count := Z.of_nat (length transactions);
              summary_currency := "USD" |}
  end.

(** the JSON record of a stored row, as a client would send it to the
    transform engine *)
Definition as_record (t : Transaction) : Transform.transaction :=
  {| Transform.amount := Some (amount t);
     Transform.type := Some (transaction_type t);
     Transform.category := category t;
     Transform.date := None |}.

Definition coffee : Transaction :=
  {| id := 1; user_id := 1; amount := 3; currency := Some "USD";
     description := "coffee"; category := Some "Food";
     transaction_type := "expense";
     date := mk_datetime 2024 3 15 8 0 0 0 |}.

Definition salary : Transaction :=
  {| id := 2; user_id := 1; amount := 1000; currency := Some "USD";
     description := "salary"; category := None;
     transaction_type := "income";
     date := mk_datetime 2024 3 1 9 0 0 0 |}.

Definition rent_of_bob : Transaction :=
  {| id := 3; user_id := 2; amount := 700; currency := Some "USD";
     description := "rent"; category := Some "Bills";
     transaction_type := "expense";
     date := mk_datetime 2024 3 2 9 0 0 0 |}.

Definition alice : Auth.User :=
  {| Auth.id := 1; Auth.username := "alice";
     Auth.hashed_password := "$2b$12$hash"; Auth.is_active := Some true |}.

End Ledger.

(** ** Budget progress, the whole request ([get_budget_progress]) *)

Module BudgetProgress.
Import Calendar Exn Num Handlers.

(** a row of [budgets], without its audit timestamps *)
Record budget_row : Type := {
  id : Z;
  user_id : Z;
  name : string;
  amount : Q;
  currency : option string;
  period : option string;
  category : option string;
  start_date : datetime;
  end_date : option datetime;
  is_active : option bool
}.

(** an element of ["budgets"]; [progress] holds the amounts, the rounded
    percentage and the status *)
Record progress_entry : Type := {
  budget_id : Z;
  budget_name : string;
  progress : Budget.budget_entry;
  entry_currency : option string;
  entry_category : option string;
  entry_period : option string;
  entry_start_date : datetime;
  entry_end_date : option datetime
}.

Record progress_report : Type := {
  total_budgets : Z;
  active_budgets : Z;
  warning_budgets : Z;
  exceeded_budgets : Z;
  budgets : list progress_entry
}.

(** [Budget.is_active == True] *)
Definition is_True (b : option bool) : bool :=
  match b with Some true => true | _ => false end.

(** the rows [spent_query] sums for a budget: expenses of the user from the
    budget's start, up to its end if it has one, of its category if it has
    one *)
Definition counts_for (current_user : Auth.User) (budget : budget_row)
    (t : Ledger.Transaction) : bool :=
  (Ledger.user_id t =? Auth.id current_user)
  && match category budget with
     | Some c => Ledger.eq_opt (Ledger.category t) c
     | None => true
     end
  && String.eqb (Ledger.transaction_type t) "expense"
  && Ledger.dt_leb (start_date budget) (Ledger.date t)
  && match end_date budget with
     | Some e => Ledger.dt_leb (Ledger.date t) e
     | None => true
     end.

(** [spent_query.scalar() or 0]: the sum, 0 when no row counts *)
Definition spent_amount_of (current_user : Auth.User) (budget : budget_row)
    (transactions : list Ledger.Transaction) : Q :=
  sum (map Ledger.amount
           (List.filter (counts_for current_user budget) transactions)).

Definition progress_entry_of (current_user : Auth.User)
    (transactions : list Ledger.Transaction) (budget : budget_row)
  : progress_entry :=
  let spent_amount := spent_amount_of current_user budget transactions in
  {| budget_id := id budget;
     budget_name := name budget;
     progress := Budget.budget_progress_entry (amount budget) spent_amount;
     entry_currency := currency budget;
     entry_category := category budget;
     entry_period := period budget;
     entry_start_date := start_date budget;
     entry_end_date := end_date budget |}.

Definition reported_percentage (e : progress_entry) : Q :=
  Budget.entry_progress_percentage (progress e).

Definition has_status (s : string) (e : progress_entry) : bool :=
  String.eqb (Budget.status (progress e)) s.

Definition reported (current_user : Auth.User) (b : budget_row) : bool :=
  (user_id b =? Auth.id current_user) && is_True (is_active b).

Definition get_budget_progress (current_user : Auth.User)
    (all_budgets : list budget_row) (transactions : list Ledger.Transaction)
  : result progress_report :=
  let budgets := List.filter (reported current_user) all_budgets in
  let budget_progress :=
    map (progress_entry_of current_user transactions) budgets in
  let budget_progress :=
    Category.sort_reverse reported_percentage budget_progress in
  Return
    {| total_budgets := Z.of_nat (length budget_progress);
       active_budgets :=
         Z.of_nat (length (List.filter (has_status "good") budget_progress));
       warning_budgets :=
         Z.of_nat (length (List.filter (has_status "warning") budget_progress));
       exceeded_budgets :=
         Z.of_nat (length (List.filter (has_status "exceeded") budget_progress));
       budgets := budget_progress |}.

Definition groceries : budget_row :=
  {| id := 1; user_id := 1; name := "groceries"; amount := 100;
     currency := Some "USD"; period := Some "monthly";
     category := Some "Food"; start_date := mk_datetime 2024 3 1 0 0 0 0;
     end_date := None; is_active := Some true |}.

(** the three statuses *)
Definition one_of_three (e : progress_entry) : Prop :=
  Budget.status (progress e) = "good"
  \/ Budget.status (progress e) = "warning"
  \/ Budget.status (progress e) = "exceeded".

(** a budget that is switched off *)
Definition hidden : budget_row :=
  {| id := 2; user_id := 1; name := "travel"; amount := 500;
     currency := Some "USD"; period := Some "yearly";
     category := None; start_date := mk_datetime 2024 1 1 0 0 0 0;
     end_date := None; is_active := Some false |}.

End BudgetProgress.

(** ** The other transformations and their dispatch
    ([transform_categorize], [transform_normalize],
    [transform_financial_data]) *)

Module Transforms.
Import Calendar Exn Num Handlers Transform.
Local Open Scope exn_scope.

(** a value of the ["categories"] dictionary *)
Record group : Type := { group_total : Q; group_count : Z }.

Definition empty_group : group := {| group_total := 0; group_count := 0 |}.

Definition add_total (a : Q) (g : group) : group :=
  {| group_total := (group_total g + a)%Q; group_count := group_count g |}.

Definition add_one (g : group) : group :=
  {| group_total := group_total g; group_count := group_count g + 1 |}.

(** the body of the loop of [transform_categorize] *)
Definition categorize_step (categories : gmap string group)
    (transaction : transaction) : gmap string group :=
  let category := default "Uncategorized" (Transform.category transaction) in
  let amount := get_amount transaction in
  let categories :=
    match categories !! category with
    | None => <[category := empty_group]> categories
    | Some _ => categories
    end in
  let categories := alter (add_total amount) category categories in
  alter add_one category categories.

Definition transform_categorize (d : data) : payload (gmap string group) :=
  match transactions d with
  | None => Error "No transactions data provided"
  | Some transactions => Result (fold_left categorize_step transactions ∅)
  end.

(** [min(x :: xs)] and [max(x :: xs)]: the first smallest, the first
    largest *)
Definition list_min (x : Q) (xs : list Q) : Q :=
  fold_left (fun m y => if Qltb y m then y else m) xs x.

Definition list_max (x : Q) (xs : list Q) : Q :=
  fold_left (fun m y => if Qltb m y then y else m) xs x.

Record normalization : Type := {
  original_min : Q;
  original_max : Q;
  normalized_transactions : list (transaction * Q)
}.

Definition normalized_amount (min_amount max_amount amount : Q) : Q :=
  if negb (Qeq_bool max_amount min_amount)
  then ((amount - min_amount) / (max_amount - min_amount))%Q
  else 0%Q.

Definition transform_normalize (d : data) : payload normalization :=
  match transactions d with
  | None => Error "No transactions data provided"
  | Some transactions =>
    let amounts := map get_amount transactions in
    match amounts with
    | [] => Error "No valid amounts found"
    | first :: rest =>
      let min_amount := list_min first rest in
      let max_amount := list_max first rest in
      Result
        {| original_min := min_amount;
           original_max := max_amount;
           normalized_transactions :=
             map (fun transaction =>
                    (transaction,
                     normalized_amount min_amount max_amount
                                       (get_amount transaction)))
                 transactions |}
    end
  end.

(** the ["result"] of a transformation *)
Inductive transformed : Type :=
| Summarized (r : payload summary)
| Categorized (r : payload (gmap string group))
| Normalized (r : payload normalization)
| Aggregated (r : payload aggregation).

Record transform_response : Type := {
  transformation_type : string;
  input_data : data;
  result_of : transformed;
  timestamp : datetime
}.

Section Dispatch.
Variable fromisoformat : string -> option datetime.

Definition transform_financial_data (d : data) (transformation_type : string)
    (now : datetime) : result transform_response :=
  try_except
    (do result <-
       (if String.eqb transformation_type "summarize" then
          Return (Summarized (transform_summarize d))
        else if String.eqb transformation_type "categorize" then
          Return (Categorized (transform_categorize d))
        else if String.eqb transformation_type "normalize" then
          Return (Normalized (transform_normalize d))
        else if String.eqb transformation_type "aggregate" then
          Return (Aggregated (transform_aggregate fromisoformat d))
        else
          Raise (HTTPException HTTP_400_BAD_REQUEST
                   "Invalid transformation type" []));
     Return {| transformation_type := transformation_type;
               input_data := d;
               result_of := result;
               timestamp := now |})
    is_Exception
    (fun e => Raise internal_server_error).

End Dispatch.

(** the records of category [k] *)
Definition in_category (k : string) (t : transaction) : bool :=
  String.eqb (default "Uncategorized" (Transform.category t)) k.

(** [transaction.get("type", "expense") == "income"] *)
Definition is_income (t : transaction) : bool :=
  String.eqb (default "expense" (type t)) "income".

(** what a record does to the group of its category *)
Definition grow (og : option group) (t : transaction) : option group :=
  Some (add_one (add_total (get_amount t) (default empty_group og))).

(** the sum of [cnt] over the values of a dictionary *)
Definition total_count {A} (cnt : A -> Z) (m : gmap string A) : Z :=
  map_fold (fun _ v acc => cnt v + acc) 0 m.

End Transforms.

(** ** Registration and login ([app/routers/notes.py], [authenticate_user]) *)

Module Accounts.
Import Exn Handlers Auth.
Local Open Scope exn_scope.

(** a row of [users] with the columns the resolver does not read *)
Record account : Type := {
  user : User;
  email : string;
  full_name : option string
}.

(** a validated [UserCreate] body *)
Record UserCreate : Type := {
  new_username : string;
  new_email : string;
  new_full_name : option string;
  password : string
}.

(** a row of [user_preferences] *)
Record UserPreference : Type := {
  preference_id : Z;
  preference_user_id : Z;
  default_currency : string;
  timezone : string;
  notification_enabled : bool;
  theme : string;
  language : string
}.

Record database : Type := {
  users : list account;
  user_preferences : list UserPreference
}.

Record Token : Type := {
  access_token : token;
  token_type : string
}.

(** the key the store gives a new row: one more than the largest key *)
Definition next_key (keys : list Z) : Z := 1 + fold_right Z.max 0 keys.

Definition by_username (name : string) (a : account) : bool :=
  String.eqb (username (user a)) name.

Definition by_email (address : string) (a : account) : bool :=
  String.eqb (email a) address.

Definition username_taken : exn :=
  HTTPException HTTP_400_BAD_REQUEST "Username already registered" [].

Definition email_taken : exn :=
  HTTPException HTTP_400_BAD_REQUEST "Email already registered" [].

Definition incorrect_login : exn :=
  HTTPException HTTP_401_UNAUTHORIZED "Incorrect username or password"
                [("WWW-Authenticate", "Bearer")].

(** the column defaults of a new [UserPreference(user_id=...)] *)
Definition default_preference (key user_id : Z) : UserPreference :=
  {| preference_id := key; preference_user_id := user_id;
     default_currency := "USD"; timezone := "UTC";
     notification_enabled := true; theme := "light"; language := "en" |}.

Section WithPasswords.

(** [pwd_context.hash] and [pwd_context.verify] of the password library *)
Variable get_password_hash : string -> string.
Variable verify_password : string -> string -> bool.

Definition register_user (new : UserCreate) (db : database)
  : result account * database :=
  match List.find (by_username (new_username new)) (users db) with
  | Some existing_user => (reraise_http (Raise username_taken), db)
  | None =>
    match List.find (by_email (new_email new)) (users db) with
    | Some existing_email => (reraise_http (Raise email_taken), db)
    | None =>
      let hashed_password := get_password_hash (password new) in
      let db_user :=
        {| user := {| id := next_key (map (fun a => id (user a)) (users db));
                      username := new_username new;
                      hashed_password := hashed_password;
                      is_active := Some true |};
           email := new_email new;
           full_name := new_full_name new |} in
      let user_preference :=
        default_preference
          (next_key (map preference_id (user_preferences db)))
          (id (user db_user)) in
      (Return db_user,
       {| users := users db ++ [db_user];
          user_preferences := user_preferences db ++ [user_preference] |})
    end
  end.

Definition authenticate_user (db : database) (name password : string)
  : option account :=
  match List.find (by_username name) (users db) with
  | None => None
  | Some a =>
    if negb (verify_password password (hashed_password (user a))) then None
    else Some a
  end.

Definition login_for_access_token (settings : Settings)
    (form_username form_password : string) (db : database) (now : Z)
  : result Token :=
  reraise_http
    (match authenticate_user db form_username form_password with
     | None => Raise incorrect_login
     | Some a =>
       let access_token_expires := 60 * access_token_expire_minutes settings in
       let access_token :=
         create_access_token settings
           {[ "sub" := ClaimStr (username (user a)) ]}
           (Some access_token_expires) now in
       Return {| access_token := access_token; token_type := "bearer" |}
     end).

End WithPasswords.

(** the user table as the resolver reads it *)
Definition resolver_view (db : database) : list User := map user (users db).

(** a toy password library for the worked examples: the hash is the
    password behind a marker *)
Definition toy_hash (p : string) : string := "hash:" +:+ p.
Definition toy_verify (p h : string) : bool := String.eqb (toy_hash p) h.

Definition carol : UserCreate :=
  {| new_username := "carol"; new_email := "carol@example.com";
     new_full_name := None; password := "correct horse" |}.

Definition one_user : database :=
  snd (register_user toy_hash carol {| users := []; user_preferences := [] |}).

End Accounts.

(** * Part II: properties *)

(** ** The calendar *)

Module CalendarFacts.
Import Calendar.

Lemma all_from_spec f n z :
  all_from f n z = true ->
  forall k, z <= k < z + Z.of_nat n -> f k = true.
Proof.
  revert z; induction n as [|n IH]; intros z H k Hk.
  - simpl in Hk. lia.
  - simpl in H. destruct (f z) eqn:E; [|discriminate].
    destruct (Z.eq_dec k z) as [->|Hne]; [exact E|].
    apply (IH (z + 1) H). lia.
Qed.

Lemma days_before_year_shift y k :
  days_before_year (y + 400 * k) = days_before_year y + DI400Y * k.
Proof.
  unfold days_before_year, DI400Y. cbv zeta.
  replace (y + 400 * k - 1) with (y - 1 + (100 * k) * 4) at 2 by lia.
  replace (y + 400 * k - 1) with (y - 1 + (4 * k) * 100) at 2 by lia.
  replace (y + 400 * k - 1) with (y - 1 + k * 400) at 2 by lia.
  rewrite !Z.div_add by lia. lia.
Qed.

Lemma is_leap_shift y k : is_leap (y + 400 * k) = is_leap y.
Proof.
  unfold is_leap.
  replace (y + 400 * k) with (y + (100 * k) * 4) at 1 by lia.
  replace (y + 400 * k) with (y + (4 * k) * 100) at 1 by lia.
  replace (y + 400 * k) with (y + k * 400) by lia.
  now rewrite !Z.mod_add by lia.
Qed.

Lemma ymd2ord_shift y m d k :
  ymd2ord (y + 400 * k) m d = ymd2ord y m d + DI400Y * k.
Proof.
  unfold ymd2ord, days_before_month.
  rewrite days_before_year_shift, is_leap_shift. lia.
Qed.

Lemma days_in_month_shift y m k :
  days_in_month (y + 400 * k) m = days_in_month y m.
Proof. unfold days_in_month. now rewrite is_leap_shift. Qed.

(** [_ord2ymd] works on the position inside the 400-year cycle and adds the
    cycle's years back. *)
Lemma ord2ymd_cycle n :
  ord2ymd n =
  let '(y, m, d) := ord2ymd ((n - 1) mod DI400Y + 1) in
  (y + 400 * ((n - 1) / DI400Y), m, d).
Proof.
  unfold ord2ymd. cbv zeta.
  replace ((n - 1) mod DI400Y + 1 - 1) with ((n - 1) mod DI400Y) by lia.
  assert (Hr : 0 <= (n - 1) mod DI400Y < DI400Y)
    by (apply Z.mod_pos_bound; reflexivity).
  rewrite (Z.mod_small ((n - 1) mod DI400Y) DI400Y) by exact Hr.
  rewrite (Z.div_small ((n - 1) mod DI400Y) DI400Y) by exact Hr.
  set (r := (n - 1) mod DI400Y).
  set (q := (n - 1) / DI400Y).
  repeat match goal with
         | |- context [if ?b then _ else _] => destruct b
         end; f_equal; try f_equal; lia.
Qed.

Lemma month_day_check :
  all_from (month_day_ok false) 365 0 = true
  /\ all_from (month_day_ok true) 365 0 = true.
Proof. split; vm_compute; reflexivity. Qed.

Lemma month_day_spec leapyear n :
  0 <= n < 365 ->
  let '(m, d) := month_day n leapyear in
  1 <= m <= 12
  /\ 1 <= d <= (if (m =? 2) && leapyear then 29 else DAYS_IN_MONTH m)
  /\ DAYS_BEFORE_MONTH m + (if (2 <? m) && leapyear then 1 else 0) + d = n + 1.
Proof.
  intros Hn.
  assert (H : month_day_ok leapyear n = true).
  { destruct month_day_check as [Hf Ht].
    destruct leapyear;
      [apply (all_from_spec _ _ _ Ht)|apply (all_from_spec _ _ _ Hf)];
      cbn; lia. }
  unfold month_day_ok in H. destruct (month_day n leapyear) as [m d].
  rewrite !andb_true_iff, !Z.leb_le, Z.eqb_eq in H. lia.
Qed.

(** the leap rule on the counters of [_ord2ymd] *)
Lemma is_leap_counters n100 n4 n1 :
  0 <= n100 <= 3 -> 0 <= n4 <= 24 -> 0 <= n1 <= 3 ->
  is_leap (1 + (n100 * 100 + n4 * 4 + n1))
  = (n1 =? 3) && (negb (n4 =? 24) || (n100 =? 3)).
Proof.
  intros H100 H4 H1. unfold is_leap.
  set (y := 1 + (n100 * 100 + n4 * 4 + n1)).
  destruct (n1 =? 3) eqn:E1; destruct (n4 =? 24) eqn:E4;
    destruct (n100 =? 3) eqn:E100;
    destruct (y mod 4 =? 0) eqn:M4; destruct (y mod 100 =? 0) eqn:M100;
    destruct (y mod 400 =? 0) eqn:M400; try reflexivity; exfalso;
    rewrite ?Z.eqb_eq, ?Z.eqb_neq in *; subst y;
    Z.div_mod_to_equations; lia.
Qed.

Lemma days_before_year_counters n100 n4 n1 :
  0 <= n100 <= 3 -> 0 <= n4 <= 24 -> 0 <= n1 <= 3 ->
  days_before_year (1 + (n100 * 100 + n4 * 4 + n1))
  = n100 * DI100Y + n4 * DI4Y + n1 * 365.
Proof.
  intros H100 H4 H1. unfold days_before_year, DI100Y, DI4Y. cbv zeta.
  Z.div_mod_to_equations. lia.
Qed.

Lemma ord2ymd_in_cycle r : 0 <= r < DI400Y -> cycle_ok r = true.
Proof.
  intros Hr. unfold cycle_ok, ord2ymd. cbv zeta.
  replace (r + 1 - 1) with r by lia.
  rewrite (Z.div_small r DI400Y), (Z.mod_small r DI400Y) by exact Hr.
  pose proof (Z.div_mod r DI100Y ltac:(discriminate)) as D100.
  pose proof (Z.mod_pos_bound r DI100Y ltac:(reflexivity)) as B100.
  set (n100 := r / DI100Y) in *. set (r1 := r mod DI100Y) in *.
  pose proof (Z.div_mod r1 DI4Y ltac:(discriminate)) as D4.
  pose proof (Z.mod_pos_bound r1 DI4Y ltac:(reflexivity)) as B4.
  set (n4 := r1 / DI4Y) in *. set (r2 := r1 mod DI4Y) in *.
  pose proof (Z.div_mod r2 365 ltac:(discriminate)) as D1.
  pose proof (Z.mod_pos_bound r2 365 ltac:(reflexivity)) as B1.
  set (n1 := r2 / 365) in *. set (r3 := r2 mod 365) in *.
  unfold DI400Y, DI100Y, DI4Y in *.
  assert (N100 : 0 <= n100 <= 4) by lia.
  assert (N4 : 0 <= n4 <= 24) by lia.
  assert (N1 : 0 <= n1 <= 4) by lia.
  destruct ((n1 =? 4) || (n100 =? 4)) eqn:Elast.
  - apply orb_true_iff in Elast. rewrite !Z.eqb_eq in Elast.
    assert (Hy : 0 * 400 + 1 + (n100 * 100 + n4 * 4 + n1) - 1
                 = 1 + (n100 * 100 + n4 * 4 + (n1 - 1))) by lia.
    rewrite Hy.
    destruct (Z.eq_dec n100 4) as [E100|E100].
    + assert (n4 = 0 /\ n1 = 0) as [-> ->] by lia.
      assert (Er : r + 1 = 146097) by lia.
      rewrite E100, Er. reflexivity.
    + assert (n1 = 4) as -> by lia.
      unfold ymd2ord, days_before_month, days_in_month.
      rewrite is_leap_counters, days_before_year_counters by lia.
      unfold DI100Y, DI4Y.
      replace (4 - 1 =? 3) with true by reflexivity.
      assert (E4 : (n4 =? 24) = false) by (apply Z.eqb_neq; lia).
      rewrite E4. cbn [negb orb andb Z.ltb Z.eqb Z.compare Pos.compare
                       Pos.compare_cont Pos.eqb DAYS_BEFORE_MONTH DAYS_IN_MONTH].
      rewrite !andb_true_iff, !Z.leb_le, Z.eqb_eq. lia.
  - apply orb_false_iff in Elast. rewrite !Z.eqb_neq in Elast.
    set (leapyear := (n1 =? 3) && (negb (n4 =? 24) || (n100 =? 3))).
    pose proof (month_day_spec leapyear r3 ltac:(lia)) as Hmd.
    unfold month_day in Hmd. cbv zeta in Hmd.
    match goal with
    | |- context [if ?c then _ else _] =>
      match c with
      | (r3 <? _) => destruct c
      end
    end;
      (destruct Hmd as (Hm & Hd & Hsum);
       unfold ymd2ord, days_before_month, days_in_month;
       replace (0 * 400 + 1 + (n100 * 100 + n4 * 4 + n1))
         with (1 + (n100 * 100 + n4 * 4 + n1)) by lia;
       rewrite is_leap_counters, days_before_year_counters by lia;
       fold leapyear; unfold DI100Y, DI4Y;
       rewrite !andb_true_iff, !Z.leb_le, Z.eqb_eq; lia).
Qed.

(** [_ymd2ord] inverts [_ord2ymd], and [_ord2ymd] yields a calendar date. *)
Lemma ord2ymd_roundtrip n :
  1 <= n ->
  let '(y, m, d) := ord2ymd n in
  ymd2ord y m d = n /\ 1 <= y /\ 1 <= m <= 12 /\ 1 <= d <= days_in_month y m.
Proof.
  intros Hn. rewrite ord2ymd_cycle.
  assert (Hr : 0 <= (n - 1) mod DI400Y < DI400Y)
    by (apply Z.mod_pos_bound; reflexivity).
  pose proof (ord2ymd_in_cycle _ Hr) as Hc. unfold cycle_ok in Hc.
  destruct (ord2ymd ((n - 1) mod DI400Y + 1)) as [[y m] d].
  rewrite !andb_true_iff in Hc.
  destruct Hc as [[[[[[H1 H2] H3] H4] H5] H6] H7].
  apply Z.eqb_eq in H1.
  apply Z.leb_le in H2, H3, H4, H5, H6, H7.
  assert (Hq : 0 <= (n - 1) / DI400Y)
    by (apply Z.div_pos; unfold DI400Y; lia).
  rewrite ymd2ord_shift, days_in_month_shift, H1.
  pose proof (Z.div_mod (n - 1) DI400Y ltac:(discriminate)).
  repeat split; lia.
Qed.

Lemma days_before_year_succ y :
  days_before_year (y + 1) = days_before_year y + (if is_leap y then 366 else 365).
Proof.
  unfold days_before_year, is_leap. cbv zeta.
  replace (y + 1 - 1) with y by lia.
  destruct (y mod 4 =? 0) eqn:E4; destruct (y mod 100 =? 0) eqn:E100;
    destruct (y mod 400 =? 0) eqn:E400; cbn [andb orb negb];
    rewrite ?Z.eqb_eq, ?Z.eqb_neq in *;
    Z.div_mod_to_equations; lia.
Qed.

Lemma days_before_year_mono a b : a <= b -> days_before_year a <= days_before_year b.
Proof.
  intros H. unfold days_before_year. cbv zeta.
  Z.div_mod_to_equations. lia.
Qed.

Lemma valid_date_inv y m d :
  valid_date y m d = true ->
  1 <= y <= 9999 /\ 1 <= m <= 12 /\ 1 <= d <= days_in_month y m.
Proof.
  unfold valid_date. rewrite !andb_true_iff, !Z.leb_le. lia.
Qed.

Lemma ymd2ord_bounds y m d :
  valid_date y m d = true -> 1 <= ymd2ord y m d <= MAXORDINAL.
Proof.
  intros H. apply valid_date_inv in H. destruct H as (Hy & Hm & Hd).
  pose proof (days_before_year_mono 1 y ltac:(lia)) as Hlo.
  pose proof (days_before_year_mono (y + 1) 10000 ltac:(lia)) as Hhi.
  rewrite days_before_year_succ in Hhi.
  change (days_before_year 1) with 0 in Hlo.
  change (days_before_year 10000) with 3652059 in Hhi.
  unfold ymd2ord, days_before_month, MAXORDINAL.
  unfold days_in_month in Hd.
  assert (Hcases : m = 1 \/ m = 2 \/ m = 3 \/ m = 4 \/ m = 5 \/ m = 6 \/
                   m = 7 \/ m = 8 \/ m = 9 \/ m = 10 \/ m = 11 \/ m = 12) by lia.
  destruct (is_leap y);
    repeat (destruct Hcases as [->|Hcases]); try subst m;
    cbn in Hd |- *; lia.
Qed.

Lemma days_before_year_year_bound y m d n :
  ymd2ord y m d = n -> 1 <= m <= 12 -> 1 <= d -> n <= MAXORDINAL -> y <= 9999.
Proof.
  intros Hn Hm Hd Hmax.
  destruct (Z_le_gt_dec y 9999) as [|Hgt]; [assumption|exfalso].
  pose proof (days_before_year_mono 10000 y ltac:(lia)) as Hlo.
  change (days_before_year 10000) with 3652059 in Hlo.
  unfold ymd2ord, days_before_month, MAXORDINAL in *.
  assert (0 <= DAYS_BEFORE_MONTH m).
  { assert (Hcases : m = 1 \/ m = 2 \/ m = 3 \/ m = 4 \/ m = 5 \/ m = 6 \/
                     m = 7 \/ m = 8 \/ m = 9 \/ m = 10 \/ m = 11 \/ m = 12) by lia.
    repeat (destruct Hcases as [->|Hcases]); try subst m; cbn; lia. }
  destruct ((2 <? m) && is_leap y); lia.
Qed.

End CalendarFacts.

(** ** The period window *)

Module PeriodWindowFacts.
Import Calendar CalendarFacts PeriodWindow.

Lemma week_start_ordinal now :
  valid_datetime now = true ->
  let n := toordinal now - weekday now in
  1 <= n <= MAXORDINAL /\ (n + 6) mod 7 = 0 /\ n <= toordinal now < n + 7.
Proof.
  intros Hv. unfold valid_datetime in Hv. apply andb_true_iff in Hv.
  destruct Hv as [Hd _]. apply ymd2ord_bounds in Hd.
  unfold weekday, toordinal in *.
  set (o := ymd2ord (year now) (month now) (day now)) in *.
  cbv zeta. Z.div_mod_to_equations. lia.
Qed.

Lemma start_date_week now :
  valid_datetime now = true ->
  exists s, start_date "week" now = Some s /\ valid_datetime s = true
            /\ at_midnight s /\ monday_on_or_before s now.
Proof.
  intros Hv. pose proof (week_start_ordinal now Hv) as Hw. cbv zeta in Hw.
  destruct Hw as (Hrange & Hmon & Hnear).
  unfold start_date. cbn [String.eqb Ascii.eqb Bool.eqb]. unfold sub_days.
  set (n := toordinal now - weekday now) in *.
  assert (Hb : (1 <=? n) && (n <=? MAXORDINAL) = true)
    by (apply andb_true_iff; rewrite !Z.leb_le; lia).
  rewrite Hb.
  pose proof (ord2ymd_roundtrip n ltac:(lia)) as Hrt.
  destruct (ord2ymd n) as [[y m] d].
  destruct Hrt as (Hord & Hy & Hm & Hd).
  eexists; split; [reflexivity|].
  assert (Hy' : y <= 9999)
    by (apply (days_before_year_year_bound y m d n); lia).
  repeat split; cbn [hour minute second microsecond]; try reflexivity.
  - unfold valid_datetime, replace_midnight, valid_date, valid_time.
    cbn [year month day hour minute second microsecond].
    rewrite !andb_true_iff, !Z.leb_le. repeat split; try lia; reflexivity.
  - unfold weekday, toordinal, replace_midnight. cbn [year month day].
    now rewrite Hord.
  - unfold toordinal at 1, replace_midnight. cbn [year month day]. lia.
  - unfold toordinal at 2, replace_midnight. cbn [year month day]. lia.
Qed.

(** C9. For every valid reference instant [now], the window start is:
    day: midnight of [now]'s date; week: midnight of the Monday on or before
    [now]; month: midnight of the 1st of [now]'s month; year: midnight of
    January 1 of [now]'s year. The result is a function of the period tag
    and [now] alone. *)
Theorem period_window_start (now : datetime) :
  valid_datetime now = true ->
  start_date "day" now
    = Some (mk_datetime (year now) (month now) (day now) 0 0 0 0)
  /\ (exists s, start_date "week" now = Some s /\ valid_datetime s = true
                /\ at_midnight s /\ monday_on_or_before s now)
  /\ start_date "month" now
    = Some (mk_datetime (year now) (month now) 1 0 0 0 0)
  /\ start_date "year" now = Some (mk_datetime (year now) 1 1 0 0 0 0).
Proof.
  intros Hv. repeat split; try reflexivity.
  now apply start_date_week.
Qed.

Lemma period_window_start_witness :
  let now := mk_datetime 2024 3 15 10 30 45 123456 in
  start_date "day" now = Some (mk_datetime 2024 3 15 0 0 0 0)
  /\ (exists s, start_date "week" now = Some s /\ valid_datetime s = true
                /\ at_midnight s /\ monday_on_or_before s now)
  /\ start_date "month" now = Some (mk_datetime 2024 3 1 0 0 0 0)
  /\ start_date "year" now = Some (mk_datetime 2024 1 1 0 0 0 0).
Proof.
  exact (period_window_start (mk_datetime 2024 3 15 10 30 45 123456) eq_refl).
Defined.

Example start_date_week_example :
  start_date "week" (mk_datetime 2024 3 15 10 30 45 123456)
  = Some (mk_datetime 2024 3 11 0 0 0 0).
Proof. vm_compute. reflexivity. Qed.

End PeriodWindowFacts.

(** ** The token codec and the principal resolver *)

Module AuthFacts.
Import Exn Auth.
Local Open Scope exn_scope.

Section WithSettings.
Variable settings : Settings.

Lemma jwt_decode_Return tok key algs now claims :
  jwt_decode tok key algs now = Return claims ->
  exists alg exp,
    tok = Jws alg key claims /\ In alg algs
    /\ claims !! "exp" = Some (ClaimInt exp) /\ now < exp
    /\ (forall z, claims !! "sub" <> Some (ClaimInt z)).
Proof.
  destruct tok as [raw|alg k cl]; cbn; [discriminate|].
  destruct (existsb (String.eqb alg) algs) eqn:Ealg; cbn; [|discriminate].
  destruct (String.eqb k key) eqn:Ek; cbn; [|discriminate].
  destruct (cl !! "exp") as [[s|exp]|] eqn:Eexp; try discriminate.
  destruct (now <? exp) eqn:Elt; [|discriminate].
  intros H.
  assert (cl = claims) as <-
    by (destruct (cl !! "sub") as [[?|?]|]; congruence).
  apply String.eqb_eq in Ek. subst k.
  apply existsb_exists in Ealg. destruct Ealg as (a & Ha & Hab).
  apply String.eqb_eq in Hab. subst a.
  exists alg, exp. repeat split; try assumption.
  - now apply Z.ltb_lt.
  - intros z Hz. rewrite Hz in H. discriminate.
Qed.

Lemma jwt_decode_raises_JWTError tok key algs now e :
  jwt_decode tok key algs now = Raise e -> is_JWTError e = true.
Proof.
  unfold jwt_decode.
  repeat match goal with
         | |- context [match ?x with _ => _ end] => destruct x
         end; intros H; inversion H; reflexivity.
Qed.

(** [verify_token] never raises: it returns a subject or [None]. *)
Lemma verify_token_total tok now :
  exists r, verify_token settings tok now = Return r.
Proof.
  unfold verify_token.
  destruct (jwt_decode tok (secret_key settings) [algorithm settings] now)
    as [claims|e] eqn:E; cbn.
  - apply jwt_decode_Return in E. destruct E as (alg & exp & _ & _ & _ & _ & Hsub).
    destruct (claims !! "sub") as [[s|z]|] eqn:Es; cbn; eauto.
    now destruct (Hsub z).
  - rewrite (jwt_decode_raises_JWTError _ _ _ _ _ E). eauto.
Qed.

(** [verify_token] returns the subject exactly when the token is signed
    under the configured key and algorithm, carries a subject, and the
    current time is strictly before its expiry. *)
Lemma verify_token_subject tok now u :
  verify_token settings tok now = Return (Some (mk_TokenData (Some u))) <->
  exists claims exp,
    tok = Jws (algorithm settings) (secret_key settings) claims
    /\ claims !! "sub" = Some (ClaimStr u)
    /\ claims !! "exp" = Some (ClaimInt exp) /\ now < exp.
Proof.
  unfold verify_token. split.
  - destruct (jwt_decode tok (secret_key settings) [algorithm settings] now)
      as [claims|e] eqn:E; cbn.
    + apply jwt_decode_Return in E.
      destruct E as (alg & exp & -> & Halg & Hexp & Hlt & _).
      destruct Halg as [<-|[]].
      destruct (claims !! "sub") as [[s|z]|] eqn:Es; cbn; try discriminate.
      intros H. inversion H; subst. exists claims, exp. auto.
    + destruct (is_JWTError e); discriminate.
  - intros (claims & exp & -> & Hsub & Hexp & Hlt). cbn.
    rewrite !String.eqb_refl. cbn. rewrite Hexp.
    apply Z.ltb_lt in Hlt. rewrite Hlt, Hsub. cbn. now rewrite Hsub.
Qed.

(** Every failure of [get_current_user] is the 401 credentials exception. *)
Lemma get_current_user_raises_401 credentials db now e :
  get_current_user settings credentials db now = Raise e -> e = credentials_exception.
Proof.
  unfold get_current_user, try_except.
  match goal with |- context [match ?b with _ => _ end] => destruct b end.
  - discriminate.
  - cbn. congruence.
Qed.

End WithSettings.

(** C1 at a stored, inactive principal with a valid token: the resolver
    raises the 400 "Inactive user" condition inside its [try], the enclosing
    [except Exception] replaces it, and the caller gets the same 401 as for
    an unknown principal or a malformed token. *)
Theorem inactive_principal_raises_401 :
  let tok := create_access_token default_settings alice_claims (Some 1800) 1000 in
  verify_token default_settings tok 1000
    = Return (Some (mk_TokenData (Some "alice")))
  /\ query_user_first [alice_inactive] (Some "alice") = Some alice_inactive
  /\ is_active alice_inactive = Some false
  /\ get_current_user default_settings tok [alice_inactive] 1000
     = Raise credentials_exception
  /\ resolve default_settings tok [alice_inactive] 1000
     = Raise credentials_exception
  /\ get_current_user default_settings tok [] 1000
     = Raise credentials_exception
  /\ get_current_user default_settings (Malformed "not-a-token")
       [alice_inactive] 1000
     = Raise credentials_exception.
Proof. vm_compute. repeat split. Qed.

(** C2 at ttl = 0: the zero duration is falsy, the issuer falls back to the
    configured 30 minutes, and the token validates at the instant of issue
    and at every later instant of the next 30 minutes. *)
Theorem zero_ttl_token_is_accepted (now : Z) :
  let tok := create_access_token default_settings alice_claims (Some 0) now in
  tok = Jws "HS256" "your-secret-key-change-in-production"
          (<["exp" := ClaimInt (now + 1800)]> alice_claims)
  /\ verify_token default_settings tok now
     = Return (Some (mk_TokenData (Some "alice")))
  /\ forall later : Z,
       verify_token default_settings tok (now + later mod 1800)
       = Return (Some (mk_TokenData (Some "alice"))).
Proof.
  assert (Htok : create_access_token default_settings alice_claims (Some 0) now
                 = Jws "HS256" "your-secret-key-change-in-production"
                     (<["exp" := ClaimInt (now + 1800)]> alice_claims))
    by reflexivity.
  assert (Hat : forall t, t < now + 1800 ->
                verify_token default_settings
                  (create_access_token default_settings alice_claims (Some 0) now) t
                = Return (Some (mk_TokenData (Some "alice")))).
  { intros t Ht. apply verify_token_subject.
    exists (<["exp" := ClaimInt (now + 1800)]> alice_claims), (now + 1800).
    split; [exact Htok|].
    split; [now rewrite lookup_insert_ne|].
    split; [now rewrite lookup_insert_eq|exact Ht]. }
  cbv zeta. split; [exact Htok|]. split.
  - apply Hat. lia.
  - intros later. apply Hat.
    pose proof (Z.mod_pos_bound later 1800 ltac:(reflexivity)). lia.
Qed.

End AuthFacts.

(** ** Sums and rounding *)

Module NumFacts.
Import Num.
Local Open Scope Q_scope.

Lemma Qltb_lt x y : Qltb x y = true <-> x < y.
Proof.
  unfold Qltb. rewrite negb_true_iff. split.
  - intros H. apply Qnot_le_lt. intros Hle.
    apply Qle_bool_iff in Hle. congruence.
  - intros H. destruct (Qle_bool y x) eqn:E; [|reflexivity].
    apply Qle_bool_iff in E. lra.
Qed.

Lemma Qltb_ge x y : Qltb x y = false <-> y <= x.
Proof.
  unfold Qltb. rewrite negb_false_iff. apply Qle_bool_iff.
Qed.

Lemma fold_left_Qplus xs a : fold_left Qplus xs a == a + fold_left Qplus xs 0.
Proof.
  revert a. induction xs as [|x xs IH]; intros a; cbn.
  - lra.
  - rewrite (IH (a + x)), (IH (0 + x)). lra.
Qed.

Lemma sum_cons x xs : sum (x :: xs) == x + sum xs.
Proof. unfold sum. cbn. rewrite fold_left_Qplus. lra. Qed.

Lemma sum_nil : sum [] = 0.
Proof. reflexivity. Qed.

Lemma sum_Permutation xs ys : Permutation xs ys -> sum xs == sum ys.
Proof.
  induction 1 as [|x l l' _ IH|x y l|l l' l'' _ IH1 _ IH2].
  - reflexivity.
  - rewrite !sum_cons, IH. reflexivity.
  - rewrite !sum_cons. lra.
  - now rewrite IH1.
Qed.

Lemma round_half_even_error x :
  Qabs (inject_Z (round_half_even x) - x) <= 1 # 2.
Proof.
  unfold round_half_even.
  pose proof (Qfloor_le x) as Hlo. pose proof (Qlt_floor x) as Hhi.
  rewrite inject_Z_plus in Hhi. change (inject_Z 1) with 1 in Hhi.
  set (f := Qfloor x) in *.
  apply Qabs_Qle_condition.
  destruct (Qcompare (x - inject_Z f) (1 # 2)) eqn:E.
  - apply Qeq_alt in E.
    destruct (Z.even f); rewrite ?inject_Z_plus;
      change (inject_Z 1) with 1; split; lra.
  - apply Qlt_alt in E. split; lra.
  - apply Qgt_alt in E. rewrite inject_Z_plus.
    change (inject_Z 1) with 1. split; lra.
Qed.

(** rounding to two places moves a value by at most half a hundredth *)
Lemma round2_error x : Qabs (round2 x - x) <= 1 # 200.
Proof.
  unfold round2. pose proof (round_half_even_error (x * 100)) as H.
  apply Qabs_Qle_condition in H. apply Qabs_Qle_condition.
  set (r := inject_Z (round_half_even (x * 100))) in *.
  assert (Hd : r / 100 == r * (1 # 100)) by reflexivity.
  rewrite Hd. split; lra.
Qed.

(** the rounded value is a whole number of hundredths *)
Lemma round2_hundredths x : exists k : Z, round2 x == inject_Z k / 100.
Proof. eexists. reflexivity. Qed.

End NumFacts.

(** ** The budget progress evaluator *)

Module BudgetFacts.
Import Num NumFacts Budget.
Local Open Scope Q_scope.

Lemma budget_status_cases p :
  (100 <= p /\ budget_status p = "exceeded")
  \/ (80 <= p /\ p < 100 /\ budget_status p = "warning")
  \/ (p < 80 /\ budget_status p = "good").
Proof.
  unfold budget_status.
  destruct (Qle_bool 100 p) eqn:E1.
  - left. split; [now apply Qle_bool_iff|reflexivity].
  - assert (H1 : p < 100).
    { apply Qnot_le_lt. intros H. apply Qle_bool_iff in H. congruence. }
    destruct (Qle_bool 80 p) eqn:E2.
    + right; left. repeat split; [now apply Qle_bool_iff|assumption].
    + right; right. split; [|reflexivity].
      apply Qnot_le_lt. intros H. apply Qle_bool_iff in H. congruence.
Qed.



End BudgetFacts.

(** ** The category aggregator *)

Module CategoryFacts.
Import Num NumFacts Category.
Local Open Scope Q_scope.

Section Sort.
Context {A : Type} (key : A -> Q).

Lemma insert_desc_Permutation x l : Permutation (insert_desc key x l) (x :: l).
Proof.
  induction l as [|y ys IH]; cbn.
  - reflexivity.
  - destruct (Qltb (key x) (key y)).
    + rewrite IH. apply perm_swap.
    + reflexivity.
Qed.

Lemma sort_reverse_Permutation l : Permutation (sort_reverse key l) l.
Proof.
  induction l as [|x l IH]; cbn.
  - reflexivity.
  - rewrite insert_desc_Permutation. now apply perm_skip.
Qed.

Lemma insert_desc_Forall (P : A -> Prop) x l :
  P x -> Forall P l -> Forall P (insert_desc key x l).
Proof.
  intros Hx Hl. induction Hl as [|y ys Hy Hys IH]; cbn.
  - now constructor.
  - destruct (Qltb (key x) (key y)); repeat constructor; assumption.
Qed.

Lemma insert_desc_sorted x l :
  StronglySorted (desc key) l -> StronglySorted (desc key) (insert_desc key x l).
Proof.
  induction 1 as [|y ys Hs IH Hall]; cbn.
  - repeat constructor.
  - destruct (Qltb (key x) (key y)) eqn:E.
    + constructor; [exact IH|].
      apply insert_desc_Forall; [|exact Hall].
      apply Qltb_lt in E. unfold desc. lra.
    + apply Qltb_ge in E. constructor; [now constructor|].
      constructor; [exact E|].
      eapply List.Forall_impl; [|exact Hall].
      intros a Ha. unfold desc in *. lra.
Qed.

Lemma sort_reverse_sorted l : StronglySorted (desc key) (sort_reverse key l).
Proof.
  induction l as [|x l IH]; cbn.
  - constructor.
  - now apply insert_desc_sorted.
Qed.



End Sort.





(** *** The percentages add up *)

Lemma sum_map_scale (f : category_row -> Q) (c : Q) rows :
  sum (map (fun r => f r * c) rows) == sum (map f rows) * c.
Proof.
  induction rows as [|r rows IH]; cbn [map].
  - reflexivity.
  - rewrite !sum_cons, IH. lra.
Qed.

Lemma sum_rounding_error total rows :
  Qabs (sum (map (fun r => percentage (breakdown_entry_of total r)) rows)
        - sum (map (raw_percentage total) rows))
  <= (1 # 200) * inject_Z (Z.of_nat (length rows)).
Proof.
  induction rows as [|r rows IH].
  - cbn. discriminate.
  - cbn [map length]. rewrite !sum_cons.
    rewrite Nat2Z.inj_succ, <- Z.add_1_r, inject_Z_plus.
    change (inject_Z 1) with 1.
    pose proof (round2_error (raw_percentage total r)) as Hr.
    cbn [percentage breakdown_entry_of] in IH |- *.
    apply Qabs_Qle_condition in Hr. apply Qabs_Qle_condition in IH.
    apply Qabs_Qle_condition.
    set (n := inject_Z (Z.of_nat (length rows))) in *.
    split; lra.
Qed.

Lemma sum_raw_percentage rows :
  0 < total_expenses_of rows ->
  sum (map (raw_percentage (total_expenses_of rows)) rows) == 100.
Proof.
  intros Hpos. set (T := total_expenses_of rows) in *.
  assert (Hext : forall l,
            sum (map (raw_percentage T) l)
            == sum (map row_total_amount l) * (/ T * 100)).
  { intros l. rewrite <- (sum_map_scale row_total_amount).
    induction l as [|r l IH]; cbn [map]; [reflexivity|].
    rewrite !sum_cons, IH. unfold raw_percentage.
    apply Qltb_lt in Hpos. rewrite Hpos.
    unfold Qdiv. ring. }
  rewrite Hext. fold (total_expenses_of rows). fold T.
  field. lra.
Qed.

(** C7 as stated fails for a non-zero grand total that is negative: every
    percentage is 0 and the sum is 0, not 100. *)
Lemma negative_total_sum_counterexample :
  [refund_row] <> []
  /\ ~ total_expenses_of [refund_row] == 0
  /\ ~ Qabs (sum (map percentage (breakdown (get_category_breakdown [refund_row]))) - 100)
       <= (1 # 100) * inject_Z (Z.of_nat (length [refund_row])).
Proof.
  split; [discriminate|]. split.
  - intros H. vm_compute in H. discriminate.
  - intros H. vm_compute in H. apply H. reflexivity.
Qed.

(** C7 (amended). For groups whose grand total is positive, the reported
    percentages sum to 100 within 0.01 per group. *)
Theorem breakdown_percentages_sum (transactions : list category_row) :
  0 < total_expenses_of transactions ->
  Qabs (sum (map percentage (breakdown (get_category_breakdown transactions))) - 100)
  <= (1 # 100) * inject_Z (Z.of_nat (length transactions)).
Proof.
  intros Hpos. unfold get_category_breakdown. cbn [breakdown].
  set (T := total_expenses_of transactions).
  rewrite (sum_Permutation _ (map percentage (map (breakdown_entry_of T) transactions))).
  2:{ apply Permutation_map, sort_reverse_Permutation. }
  rewrite map_map.
  pose proof (sum_rounding_error T transactions) as Herr.
  pose proof (sum_raw_percentage transactions Hpos) as Hraw. fold T in Hraw.
  rewrite Hraw in Herr.
  apply Qabs_Qle_condition in Herr. apply Qabs_Qle_condition.
  assert (Hn : 0 <= inject_Z (Z.of_nat (length transactions))).
  { change 0 with (inject_Z 0). rewrite <- Zle_Qle. lia. }
  set (n := inject_Z (Z.of_nat (length transactions))) in *.
  split; lra.
Qed.

Lemma breakdown_percentages_sum_witness :
  0 < total_expenses_of three_rows
  /\ Qabs (sum (map percentage (breakdown (get_category_breakdown three_rows))) - 100)
     <= (1 # 100) * inject_Z (Z.of_nat (length three_rows)).
Proof.
  split; [reflexivity|].
  apply (breakdown_percentages_sum three_rows). reflexivity.
Defined.

Example three_rows_percentages :
  map percentage (breakdown (get_category_breakdown three_rows))
  = [3333 # 100; 3333 # 100; 3333 # 100]%Q
  /\ map category (breakdown (get_category_breakdown three_rows))
     = ["Food"; "Uncategorized"; "Bills"].
Proof. vm_compute. split; reflexivity. Qed.

End CategoryFacts.

(** ** The transform engine *)

Module TransformFacts.
Import Num NumFacts Calendar Transform.

Lemma sum_filter_spec_total kind ts :
  (sum (map get_amount (List.filter (type_is kind) ts)) == spec_total kind ts)%Q.
Proof.
  induction ts as [|t ts IH]; [reflexivity|].
  cbn [List.filter spec_total]. unfold type_is at 1, contribution.
  destruct (type t) as [ty|].
  - destruct (String.eqb ty kind).
    + cbn [map]. rewrite sum_cons, IH. unfold get_amount.
      destruct (amount t); reflexivity.
    + rewrite IH. lra.
  - rewrite IH. lra.
Qed.

(** C8. summarize totals income and expense with a missing amount counted
    as 0 and a record without type in neither total; net is income minus
    expense; the average is (income + expense) / count, and 0 for no
    records; the empty list gives count 0, totals 0 and average 0. *)
Theorem summarize_totals (ts : list transaction) (p : option string) :
  exists s,
    transform_summarize {| transactions := Some ts; period := p |} = Result s
    /\ total_transactions s = Z.of_nat (length ts)
    /\ (total_income s == spec_total "income" ts)%Q
    /\ (total_expenses s == spec_total "expense" ts)%Q
    /\ (net_amount s == spec_total "income" ts - spec_total "expense" ts)%Q
    /\ (average_transaction s ==
        match ts with
        | [] => 0
        | _ => (spec_total "income" ts + spec_total "expense" ts)
               / inject_Z (Z.of_nat (length ts))
        end)%Q
    /\ transform_summarize {| transactions := Some []; period := p |}
       = Result {| total_transactions := 0; total_income := 0;
                   total_expenses := 0; net_amount := 0;
                   average_transaction := 0 |}.
Proof.
  eexists. split; [reflexivity|]. cbn.
  pose proof (sum_filter_spec_total "income" ts) as Hi.
  pose proof (sum_filter_spec_total "expense" ts) as He.
  repeat split; try assumption.
  - now rewrite Hi, He.
  - destruct ts; [reflexivity|]. now rewrite Hi, He.
Qed.

(** a record without amount adds 0, a record without type adds nothing *)
Lemma contribution_missing kind t :
  (amount t = None \/ type t = None) -> contribution kind t = 0%Q.
Proof.
  unfold contribution. intros [H|H]; rewrite H.
  - destruct (type t) as [ty|]; [destruct (String.eqb ty kind)|]; reflexivity.
  - reflexivity.
Qed.

Lemma aggregate_step_skip fromisoformat period aggregated t :
  parsed_date fromisoformat t = None -> aggregate_step fromisoformat period aggregated t = aggregated.
Proof.
  unfold parsed_date, aggregate_step. destruct (date t) as [s|]; cbn.
  - destruct (String.eqb s ""); [reflexivity|]. now intros ->.
  - reflexivity.
Qed.

Lemma aggregate_step_add fromisoformat period aggregated t d :
  parsed_date fromisoformat t = Some d ->
  aggregate_step fromisoformat period aggregated t =
  <[period_key period d :=
      add_record t (default empty_bucket (aggregated !! period_key period d))]>
    aggregated.
Proof.
  unfold parsed_date, aggregate_step. destruct (date t) as [s|]; cbn; [|discriminate].
  destruct (String.eqb s ""); [discriminate|]. intros ->.
  set (k := period_key period d). unfold add_record.
  apply map_eq. intros k'.
  destruct (decide (k' = k)) as [->|Hne].
  - rewrite lookup_insert_eq.
    destruct (aggregated !! k) as [b|] eqn:Eb; cbn;
      destruct (String.eqb (default "expense" (type t)) "income");
      rewrite !lookup_alter_eq, ?lookup_insert_eq, ?Eb; reflexivity.
  - rewrite lookup_insert_ne by congruence.
    destruct (aggregated !! k) as [b|] eqn:Eb; cbn;
      destruct (String.eqb (default "expense" (type t)) "income");
      rewrite !lookup_alter_ne, ?lookup_insert_ne by congruence; reflexivity.
Qed.

(** A bucket is built from the records whose date gives its key, in their
    order, and from nothing else: a record whose date is missing, empty or
    unparseable changes no bucket. *)
Lemma aggregate_bucket fromisoformat period ts aggregated k :
  fold_left (aggregate_step fromisoformat period) ts aggregated !! k =
  fold_left (fun ob t => Some (add_record t (default empty_bucket ob)))
            (List.filter (lands_in fromisoformat period k) ts) (aggregated !! k).
Proof.
  revert aggregated. induction ts as [|t ts IH]; intros aggregated; [reflexivity|].
  cbn [fold_left List.filter]. rewrite IH. unfold lands_in at 2.
  destruct (parsed_date fromisoformat t) as [d|] eqn:Ed.
  - rewrite (aggregate_step_add _ _ _ _ d Ed).
    destruct (String.eqb (period_key period d) k) eqn:Ek.
    + apply String.eqb_eq in Ek. subst k. cbn [fold_left].
      now rewrite lookup_insert_eq.
    + apply String.eqb_neq in Ek. now rewrite lookup_insert_ne.
  - now rewrite (aggregate_step_skip _ _ _ _ Ed).
Qed.




(** C4 at two dates 52 weeks apart: Monday 2024-12-30 is in ISO week 1 of
    ISO year 2025, Monday 2024-01-01 in ISO week 1 of ISO year 2024; the week
    key pairs the ISO week with the calendar year and both land in
    "2024-W1". *)
Theorem week_key_calendar_year :
  isocalendar (mk_datetime 2024 1 1 0 0 0 0) = (2024, 1, 1)
  /\ isocalendar (mk_datetime 2024 12 30 0 0 0 0) = (2025, 1, 1)
  /\ period_key "week" (mk_datetime 2024 1 1 0 0 0 0) = "2024-W1"
  /\ period_key "week" (mk_datetime 2024 12 30 0 0 0 0) = "2024-W1"
  /\ transform_aggregate fromisoformat_date_only
       {| transactions := Some new_year_weeks; period := Some "week" |}
     = Result {| aggregated_data :=
                   {[ "2024-W1" := {| income := 0; expenses := 30; count := 2 |} ]};
                 result_period := "week" |}.
Proof. vm_compute. repeat split. Qed.

(** the documented example: two January records share the month bucket, the
    record without date is left out *)
Example aggregate_month_example :
  transform_aggregate fromisoformat_date_only
    {| transactions :=
         Some [ record 5 (Some "income") (Some "2024-01-05");
                record 3 (Some "expense") None;
                record 4 (Some "expense") (Some "not a date");
                record 2 (Some "expense") (Some "2024-01-20") ];
       period := Some "month" |}
  = Result {| aggregated_data :=
                {[ "2024-01" := {| income := 5; expenses := 2; count := 2 |} ]};
              result_period := "month" |}.
Proof. vm_compute. reflexivity. Qed.

Example period_key_examples :
  period_key "day" (mk_datetime 2024 3 5 0 0 0 0) = "2024-03-05"
  /\ period_key "month" (mk_datetime 2024 3 5 0 0 0 0) = "2024-03"
  /\ period_key "year" (mk_datetime 2024 3 5 0 0 0 0) = "2024"
  /\ period_key "week" (mk_datetime 2024 3 5 0 0 0 0) = "2024-W10".
Proof. vm_compute. repeat split. Qed.

(** a year below 1000 is printed without padding in every key *)
Example period_key_small_year :
  period_key "day" (mk_datetime 999 1 5 0 0 0 0) = "999-01-05"
  /\ period_key "month" (mk_datetime 999 1 5 0 0 0 0) = "999-01"
  /\ period_key "year" (mk_datetime 999 1 5 0 0 0 0) = "999"
  /\ period_key "week" (mk_datetime 999 1 5 0 0 0 0) = "999-W1".
Proof. vm_compute. repeat split. Qed.

End TransformFacts.

(** ** Currency conversion *)

Module CurrencyFacts.
Import Exn Num Currency.
Local Open Scope exn_scope.

(** Whatever goes wrong, the caller sees the one 500 failure. *)
Lemma convert_currency_raises_500 client_get amount from_currency to_currency e :
  convert_currency client_get amount from_currency to_currency = Raise e ->
  e = internal_server_error.
Proof.
  unfold convert_currency, try_except.
  match goal with |- context [match ?b with _ => _ end] => destruct b end.
  - discriminate.
  - cbn. congruence.
Qed.

(** C3 at two requests: with the service down the handler raises 503, with
    an unknown target code it raises 400, and the enclosing
    [except Exception] turns both into the same 500. *)
Theorem conversion_failures_collapse :
  convert_currency service_down 100 "usd" "eur" = Raise internal_server_error
  /\ convert_currency service_up 100 "usd" "xyz" = Raise internal_server_error
  /\ convert_currency service_up 100 "usd" "eur"
     = Return {| original_amount := 100; original_currency := "USD";
                 converted_amount := (9000 # 100)%Q; target_currency := "EUR";
                 conversion_rate := (9 # 10)%Q;
                 last_updated := Some "2024-01-05" |}.
Proof. vm_compute. repeat split. Qed.

End CurrencyFacts.

(** ** More on the token codec and the resolver *)

Module TokenFacts.
Import Exn Auth AuthFacts Principals.
Local Open Scope exn_scope.

(** the expiry [create_access_token] embeds *)
Lemma create_access_token_claims settings data expires_delta now :
  exists expire,
    create_access_token settings data expires_delta now
    = Jws (algorithm settings) (secret_key settings)
          (<["exp" := ClaimInt expire]> data)
    /\ expire = match expires_delta with
                | Some d => if d =? 0
                            then now + 60 * access_token_expire_minutes settings
                            else now + d
                | None => now + 60 * access_token_expire_minutes settings
                end.
Proof.
  eexists. split; [reflexivity|].
  destruct expires_delta as [d|]; [|reflexivity].
  now destruct (d =? 0).
Qed.

Lemma validates_before_expiry settings data u d now t :
  data !! "sub" = Some (ClaimStr u) -> d <> 0 ->
  (t < now + d ->
   verify_token settings (create_access_token settings data (Some d) now) t
   = Return (Some (mk_TokenData (Some u))))
  /\ (t < now + 60 * access_token_expire_minutes settings ->
      verify_token settings (create_access_token settings data None now) t
      = Return (Some (mk_TokenData (Some u)))).
Proof.
  intros Hsub Hd. split; intros Ht; apply verify_token_subject.
  - exists (<["exp" := ClaimInt (now + d)]> data), (now + d).
    split; [|split; [|split]]; try assumption.
    + unfold create_access_token, jwt_encode.
      apply Z.eqb_neq in Hd. now rewrite Hd.
    + now rewrite lookup_insert_ne.
    + now rewrite lookup_insert_eq.
  - exists (<["exp" := ClaimInt (now + 60 * access_token_expire_minutes settings)]> data),
      (now + 60 * access_token_expire_minutes settings).
    split; [|split; [|split]]; try assumption.
    + reflexivity.
    + now rewrite lookup_insert_ne.
    + now rewrite lookup_insert_eq.
Qed.

(** X1. Round trip: a token issued for a payload with a string subject and
    a non-zero lifetime validates to that subject at every instant before
    its expiry; issued without a lifetime, at every instant of the
    configured number of minutes. *)
Theorem issued_token_validates settings data u d now t :
  data !! "sub" = Some (ClaimStr u) -> d <> 0 ->
  (t < now + d ->
   verify_token settings (create_access_token settings data (Some d) now) t
   = Return (Some (mk_TokenData (Some u))))
  /\ (t < now + 60 * access_token_expire_minutes settings ->
      verify_token settings (create_access_token settings data None now) t
      = Return (Some (mk_TokenData (Some u)))).
Proof. exact (validates_before_expiry settings data u d now t). Qed.

Lemma issued_token_validates_witness :
  verify_token default_settings
    (create_access_token default_settings alice_claims (Some 60) 1000) 1059
  = Return (Some (mk_TokenData (Some "alice")))
  /\ verify_token default_settings
       (create_access_token default_settings alice_claims None 1000) 2799
     = Return (Some (mk_TokenData (Some "alice"))).
Proof.
  assert (Hd : (60 : Z) <> 0) by discriminate.
  pose proof (issued_token_validates default_settings alice_claims "alice"
                60 1000 1059 eq_refl Hd) as H1.
  pose proof (issued_token_validates default_settings alice_claims "alice"
                60 1000 2799 eq_refl Hd) as H2.
  split.
  - apply (proj1 H1). reflexivity.
  - apply (proj2 H2). reflexivity.
Defined.

(** X2. Expiry: a token issued with a non-zero lifetime is invalid at
    every instant after its expiry, whatever its payload; the answer is
    [None], not an exception. *)
Theorem issued_token_expires settings data d now t :
  d <> 0 -> now + d < t ->
  verify_token settings (create_access_token settings data (Some d) now) t
  = Return None.
Proof.
  intros Hd Ht. unfold verify_token, create_access_token, jwt_encode, jwt_decode.
  apply Z.eqb_neq in Hd. rewrite Hd. cbn [negb].
  cbn [existsb]. rewrite !String.eqb_refl. cbn [orb negb].
  rewrite lookup_insert_eq.
  assert (Hlt : (t <? now + d) = false) by (apply Z.ltb_ge; lia).
  rewrite Hlt. reflexivity.
Qed.

Lemma issued_token_expires_witness :
  verify_token default_settings
    (create_access_token default_settings alice_claims (Some 60) 1000) 1061
  = Return None.
Proof.
  apply (issued_token_expires default_settings alice_claims 60 1000 1061).
  - discriminate.
  - reflexivity.
Defined.

(** X3. A token issued under another secret or another algorithm is
    invalid, at every instant and whatever it carries. *)
Theorem foreign_token_rejected issuer settings data expires_delta now t :
  secret_key issuer <> secret_key settings
  \/ algorithm issuer <> algorithm settings ->
  verify_token settings (create_access_token issuer data expires_delta now) t
  = Return None.
Proof.
  intros H. unfold verify_token, create_access_token, jwt_encode, jwt_decode.
  cbn [existsb]. rewrite orb_false_r.
  destruct (String.eqb (algorithm issuer) (algorithm settings)) eqn:Ea;
    cbn [negb]; [|reflexivity].
  destruct (String.eqb (secret_key issuer) (secret_key settings)) eqn:Ek;
    cbn [negb]; [|reflexivity].
  apply String.eqb_eq in Ea, Ek. destruct H; contradiction.
Qed.

Lemma foreign_token_rejected_witness :
  verify_token default_settings
    (create_access_token other_settings alice_claims (Some 60) 1000) 1001
  = Return None.
Proof.
  apply (foreign_token_rejected other_settings default_settings).
  left. discriminate.
Defined.

(** X4. The issuer alone decides the expiry: the expiry of the token is the
    same whatever the caller's payload holds, an ["exp"] entry included, and
    every other entry of the payload is carried as it is. *)
Theorem issuer_sets_expiry settings data data' expires_delta now :
  exists expire claims claims',
    create_access_token settings data expires_delta now
    = Jws (algorithm settings) (secret_key settings) claims
    /\ create_access_token settings data' expires_delta now
      = Jws (algorithm settings) (secret_key settings) claims'
    /\ claims !! "exp" = Some (ClaimInt expire)
    /\ claims' !! "exp" = Some (ClaimInt expire)
    /\ forall k, k <> "exp" -> claims !! k = data !! k.
Proof.
  destruct (create_access_token_claims settings data expires_delta now)
    as (e & He & Hv).
  destruct (create_access_token_claims settings data' expires_delta now)
    as (e' & He' & Hv').
  exists e, (<["exp" := ClaimInt e]> data), (<["exp" := ClaimInt e']> data').
  split; [exact He|]. split; [exact He'|].
  split; [apply lookup_insert_eq|].
  split; [rewrite lookup_insert_eq; congruence|].
  intros k Hk. now rewrite lookup_insert_ne.
Qed.

(** X5. The resolver is sound: a user it returns is stored, has the
    username the token names as its subject, is not flagged inactive, and
    the token is signed under the configured key and algorithm and not
    expired. *)
Theorem resolver_sound settings credentials db now user :
  resolve settings credentials db now = Return user ->
  In user db
  /\ is_active user <> Some false
  /\ exists claims exp,
       credentials = Jws (algorithm settings) (secret_key settings) claims
       /\ claims !! "sub" = Some (ClaimStr (username user))
       /\ claims !! "exp" = Some (ClaimInt exp) /\ now < exp.
Proof.
  unfold resolve, get_current_user, bind, try_except.
  destruct (verify_token settings credentials now) as [[[[name|]]|]|e] eqn:Ev;
    cbn; try discriminate.
  destruct (List.find (fun u => String.eqb (username u) name) db)
    as [u|] eqn:Ef; cbn; try discriminate.
  destruct (is_False (is_active u)) eqn:Ea; cbn; try discriminate.
  unfold get_current_active_user. rewrite Ea. intros H. inversion H; subst u.
  apply find_some in Ef. destruct Ef as [Hin Hname].
  apply String.eqb_eq in Hname. subst name.
  split; [exact Hin|]. split.
  - intros Hf. rewrite Hf in Ea. discriminate.
  - now apply verify_token_subject.
Qed.

Lemma resolver_sound_witness :
  In alice_active [alice_active] /\ is_active alice_active <> Some false.
Proof.
  pose proof (resolver_sound default_settings
                (create_access_token default_settings alice_claims (Some 60) 1000)
                [alice_active] 1001 alice_active eq_refl) as H.
  exact (conj (proj1 H) (proj1 (proj2 H))).
Defined.

Lemma resolve_returns_user settings credentials db now name user :
  verify_token settings credentials now
  = Return (Some (mk_TokenData (Some name))) ->
  query_user_first db (Some name) = Some user ->
  is_active user <> Some false ->
  resolve settings credentials db now = Return user.
Proof.
  intros Hv Hq Ha. unfold resolve, get_current_user. rewrite Hv. cbn.
  cbn in Hq. rewrite Hq.
  assert (Hf : is_False (is_active user) = false).
  { destruct (is_active user) as [[|]|]; try reflexivity. now destruct Ha. }
  rewrite Hf. cbn. unfold get_current_active_user. now rewrite Hf.
Qed.

(** X6. The resolver is complete: for a token that validates to a subject,
    the first stored user of that name is returned unless flagged inactive;
    a user whose flag is unset passes. *)
Theorem resolver_complete settings credentials db now name user :
  verify_token settings credentials now
  = Return (Some (mk_TokenData (Some name))) ->
  query_user_first db (Some name) = Some user ->
  is_active user <> Some false ->
  resolve settings credentials db now = Return user.
Proof. exact (resolve_returns_user settings credentials db now name user). Qed.

Lemma resolver_complete_witness :
  resolve default_settings
    (create_access_token default_settings alice_claims (Some 60) 1000)
    [bob_unflagged] 1001 = Return bob_unflagged.
Proof.
  apply (resolver_complete default_settings _ [bob_unflagged] 1001 "alice").
  - reflexivity.
  - reflexivity.
  - discriminate.
Defined.

End TokenFacts.

(** ** The ledger *)

Module LedgerFacts.
Import Calendar Exn Num NumFacts Handlers Ledger.

Lemma owned_spec tid u t :
  owned tid u t = true <-> id t = tid /\ user_id t = Auth.id u.
Proof. unfold owned. rewrite andb_true_iff, !Z.eqb_eq. tauto. Qed.

(** X7. [get_transaction] answers with a row only when the row is stored,
    has the requested key and belongs to the caller; otherwise it answers
    404, and it answers 404 for a row of another user exactly as for a row
    that does not exist. *)
Theorem get_transaction_owner_only transaction_id current_user db :
  match get_transaction transaction_id current_user db with
  | Return t =>
    In t db /\ id t = transaction_id /\ user_id t = Auth.id current_user
  | Raise e =>
    e = not_found
    /\ forall t, In t db ->
                 ~ (id t = transaction_id /\ user_id t = Auth.id current_user)
  end.
Proof.
  unfold get_transaction.
  destruct (List.find (owned transaction_id current_user) db) as [t|] eqn:E; cbn.
  - apply List.find_some in E. destruct E as [Hin Ho].
    apply owned_spec in Ho. tauto.
  - split; [reflexivity|]. intros t Hin Ho.
    apply (List.find_none _ _ E) in Hin. apply owned_spec in Ho. congruence.
Qed.

Lemma id_le_max (db : list Transaction) t :
  In t db -> id t <= fold_right Z.max 0 (map id db).
Proof.
  induction db as [|x db IH]; cbn; [tauto|].
  intros [->|H]; [lia|]. specialize (IH H). lia.
Qed.

Lemma next_id_fresh db t : In t db -> id t <> next_id db.
Proof. intros H. apply id_le_max in H. unfold next_id. lia. Qed.

Lemma find_app_l {A} (f : A -> bool) l l' x :
  List.find f l = Some x -> List.find f (l ++ l') = Some x.
Proof.
  induction l as [|y l IH]; cbn; [discriminate|].
  destruct (f y); [tauto|exact IH].
Qed.

Lemma find_app_r {A} (f : A -> bool) l l' :
  List.find f l = None -> List.find f (l ++ l') = List.find f l'.
Proof.
  induction l as [|y l IH]; cbn; [reflexivity|].
  destruct (f y); [discriminate|exact IH].
Qed.

(** X8. Create, then read: [create_transaction] stores a row of the caller
    under a key no stored row has, with the six fields of the request
    (amount, currency, description, category, type and date);
    [get_transaction] of that key by the caller returns it, and every other
    request answers as before the creation. *)
Theorem create_then_get transaction current_user db :
  exists t,
    create_transaction transaction current_user db = (Return t, db ++ [t])
    /\ user_id t = Auth.id current_user
    /\ amount t = new_amount transaction
    /\ currency t = Some (new_currency transaction)
    /\ description t = new_description transaction
    /\ category t = new_category transaction
    /\ transaction_type t = new_transaction_type transaction
    /\ date t = new_date transaction
    /\ (forall t', In t' db -> id t' <> id t)
    /\ get_transaction (id t) current_user (db ++ [t]) = Return t
    /\ forall transaction_id user,
         transaction_id <> id t ->
         get_transaction transaction_id user (db ++ [t])
         = get_transaction transaction_id user db.
Proof.
  eexists. split; [reflexivity|].
  cbn [id user_id amount currency description category transaction_type date].
  repeat (split; [reflexivity|]).
  split; [intros t' H; now apply next_id_fresh|].
  split.
  - unfold get_transaction. rewrite find_app_r.
    + cbn. unfold owned. cbn. now rewrite !Z.eqb_refl.
    + destruct (List.find _ db) as [t'|] eqn:E; [|reflexivity].
      apply List.find_some in E. destruct E as [Hin Ho].
      apply owned_spec in Ho. apply next_id_fresh in Hin. tauto.
  - intros tid user Hne. unfold get_transaction.
    destruct (List.find (owned tid user) db) as [t'|] eqn:E.
    + now rewrite (find_app_l _ _ _ _ E).
    + rewrite (find_app_r _ _ _ E). cbn [List.find]. unfold owned.
      cbn [id user_id].
      destruct (next_id db =? tid) eqn:En; [|reflexivity].
      apply Z.eqb_eq in En. cbn [id] in Hne. congruence.
Qed.

Lemma remove_first_In sel db t :
  In t (remove_first sel db) -> In t db.
Proof.
  induction db as [|x db IH]; cbn; [tauto|].
  destruct (sel x); cbn; tauto.
Qed.

Lemma remove_first_keeps sel db t :
  In t db -> sel t = false -> In t (remove_first sel db).
Proof.
  induction db as [|x db IH]; cbn; [tauto|].
  intros [->|H] Hs.
  - rewrite Hs. now left.
  - destruct (sel x); [assumption|]. right. now apply IH.
Qed.

Lemma find_remove_first_none (sel : Transaction -> bool) db :
  List.NoDup (map id db) ->
  (forall a b, sel a = true -> sel b = true -> id a = id b) ->
  List.find sel (remove_first sel db) = None.
Proof.
  intros Hnd Hsel. induction db as [|x db IH]; [reflexivity|].
  cbn [remove_first]. inversion Hnd as [|? ? Hx Hnd']; subst.
  destruct (sel x) eqn:Ex.
  - destruct (List.find sel db) as [y|] eqn:E; [|reflexivity].
    apply List.find_some in E. destruct E as [Hin Hy].
    exfalso. apply Hx. rewrite (Hsel x y Ex Hy). now apply in_map.
  - cbn [List.find]. rewrite Ex. now apply IH.
Qed.

Lemma remove_first_length sel db t :
  List.find sel db = Some t -> S (length (remove_first sel db)) = length db.
Proof.
  induction db as [|x db IH]; cbn; [discriminate|].
  destruct (sel x); [reflexivity|]. intros H. cbn. now rewrite IH.
Qed.

(** X9. Delete, with unique keys in the table: the request answers 404
    exactly when no stored row has the key and belongs to the caller, and
    then the table is as it was; otherwise it answers with its message, the
    table is one row shorter, a row of the caller under that key is gone,
    every other row is kept, and a later read of the key by the caller
    answers 404. No row is ever added. *)
Theorem delete_transaction_effect transaction_id current_user db :
  List.NoDup (map id db) ->
  let '(answer, db') := delete_transaction transaction_id current_user db in
  (forall t, In t db' -> In t db)
  /\ (forall t, In t db -> owned transaction_id current_user t = false ->
                In t db')
  /\ match answer with
     | Return message =>
       message = "Transaction deleted successfully"%string
       /\ (exists t, In t db /\ owned transaction_id current_user t = true
                     /\ ~ In t db')
       /\ S (length db') = length db
       /\ get_transaction transaction_id current_user db' = Raise not_found
     | Raise e =>
       e = not_found /\ db' = db
       /\ forall t, In t db -> owned transaction_id current_user t = false
     end.
Proof.
  intros Hnd. unfold delete_transaction.
  destruct (List.find (owned transaction_id current_user) db) as [t|] eqn:E.
  - assert (Hnone : List.find (owned transaction_id current_user)
                      (remove_first (owned transaction_id current_user) db)
                    = None).
    { apply find_remove_first_none; [exact Hnd|].
      intros a b Ha Hb. apply owned_spec in Ha, Hb. lia. }
    split; [intros t'; apply remove_first_In|].
    split; [intros t'; apply remove_first_keeps|].
    split; [reflexivity|]. split; [|split].
    + apply List.find_some in E as Hf. destruct Hf as [Hin Ho].
      exists t. split; [exact Hin|]. split; [exact Ho|].
      intros Hin'. pose proof (List.find_none _ _ Hnone _ Hin'). congruence.
    + exact (remove_first_length _ _ _ E).
    + unfold get_transaction. now rewrite Hnone.
  - cbn. split; [tauto|]. split; [tauto|]. split; [reflexivity|].
    split; [reflexivity|]. intros t Hin. exact (List.find_none _ _ E _ Hin).
Qed.

Lemma delete_transaction_effect_witness :
  delete_transaction 1 alice [coffee; salary; rent_of_bob]
  = (Return "Transaction deleted successfully"%string, [salary; rent_of_bob])
  /\ get_transaction 1 alice [salary; rent_of_bob] = Raise not_found.
Proof.
  assert (Hnd : List.NoDup (map id [coffee; salary; rent_of_bob])).
  { repeat constructor; cbn; intuition discriminate. }
  split; [reflexivity|].
  exact (proj2 (proj2 (proj2 (proj2 (proj2
           (delete_transaction_effect 1 alice
              [coffee; salary; rent_of_bob] Hnd)))))).
Defined.

Lemma find_replace_first sel new db :
  sel new = true ->
  List.find sel (replace_first sel new db)
  = match List.find sel db with Some _ => Some new | None => None end.
Proof.
  intros Hn. induction db as [|x db IH]; [reflexivity|].
  cbn. destruct (sel x) eqn:E; cbn.
  - now rewrite Hn.
  - now rewrite E.
Qed.

Lemma replace_first_length sel new db :
  length (replace_first sel new db) = length db.
Proof.
  induction db as [|x db IH]; [reflexivity|].
  cbn. destruct (sel x); cbn; congruence.
Qed.

Lemma replace_first_keeps sel new db t :
  In t db -> sel t = false -> In t (replace_first sel new db).
Proof.
  induction db as [|x db IH]; cbn; [tauto|].
  intros [->|H] Hs.
  - rewrite Hs. now left.
  - destruct (sel x); right; [assumption|now apply IH].
Qed.

Lemma replace_first_In sel new db t :
  In t (replace_first sel new db) -> t = new \/ In t db.
Proof.
  induction db as [|x db IH]; cbn; [tauto|].
  destruct (sel x); cbn; intuition.
Qed.

Lemma apply_update_keeps_key u old t :
  apply_update u old = Some t -> id t = id old /\ user_id t = user_id old.
Proof.
  unfold apply_update.
  destruct (set_required (upd_amount u) (amount old));
    destruct (set_required (upd_description u) (description old));
    destruct (set_required (upd_transaction_type u) (transaction_type old));
    destruct (set_required (upd_date u) (date old)); try discriminate.
  intros H. inversion H. split; reflexivity.
Qed.

(** X10. Update. The request answers 404 exactly when no stored row has
    the key and belongs to the caller, and 500 exactly when there is one and
    a column that may not be null (amount, description, type, date) is sent
    as null; in both cases the table is as it was. Otherwise it answers with
    the row after the update: key and owner as before, every field that was
    sent set to the value sent, every field that was not sent as before; the
    row stands in the table in the place of the old one, every other row is
    kept, and a later read of the key returns it. *)
Theorem update_transaction_effect transaction_id transaction_update
    current_user db :
  let '(answer, db') :=
    update_transaction transaction_id transaction_update current_user db in
  let required {A} (f : sent A) (old new : A) : Prop :=
    match f with
    | Unset => new = old
    | Sent (Some v) => new = v
    | Sent None => False
    end in
  let nullable {A} (f : sent A) (old new : option A) : Prop :=
    match f with
    | Unset => new = old
    | Sent v => new = v
    end in
  let null_sent :=
    upd_amount transaction_update = Sent None
    \/ upd_description transaction_update = Sent None
    \/ upd_transaction_type transaction_update = Sent None
    \/ upd_date transaction_update = Sent None in
  length db' = length db
  /\ match answer with
     | Return t =>
       (exists old,
          List.find (owned transaction_id current_user) db = Some old
          /\ id t = id old /\ user_id t = user_id old
          /\ required (upd_amount transaction_update) (amount old) (amount t)
          /\ nullable (upd_currency transaction_update)
                      (currency old) (currency t)
          /\ required (upd_description transaction_update)
                      (description old) (description t)
          /\ nullable (upd_category transaction_update)
                      (category old) (category t)
          /\ required (upd_transaction_type transaction_update)
                      (transaction_type old) (transaction_type t)
          /\ required (upd_date transaction_update) (date old) (date t))
       /\ id t = transaction_id /\ user_id t = Auth.id current_user
       /\ ~ null_sent
       /\ In t db'
       /\ (forall r, In r db -> owned transaction_id current_user r = false ->
                     In r db')
       /\ (forall r, In r db' -> r = t \/ In r db)
       /\ get_transaction transaction_id current_user db' = Return t
     | Raise e =>
       db' = db
       /\ ((e = not_found
            /\ forall r, In r db ->
                         owned transaction_id current_user r = false)
           \/ (e = internal_server_error
               /\ (exists old, In old db
                               /\ owned transaction_id current_user old = true)
               /\ null_sent))
     end.
Proof.
  unfold update_transaction.
  destruct (List.find (owned transaction_id current_user) db) as [old|] eqn:E.
  - apply List.find_some in E as Hfound. destruct Hfound as [Hin Ho].
    destruct (apply_update transaction_update old) as [t|] eqn:Eu.
    + cbv zeta. split; [apply replace_first_length|].
      pose proof (apply_update_keeps_key _ _ _ Eu) as [Hid Huid].
      apply owned_spec in Ho as Hkey. destruct Hkey as [Hk Hu].
      assert (Hot : owned transaction_id current_user t = true)
        by (apply owned_spec; split; congruence).
      assert (Hget : List.find (owned transaction_id current_user)
                       (replace_first (owned transaction_id current_user) t db)
                     = Some t)
        by (now rewrite (find_replace_first _ _ _ Hot), E).
      split; [|split; [congruence|split; [congruence|split; [|split; [|split;
              [|split]]]]]].
      * exists old. split; [reflexivity|]. split; [exact Hid|].
        split; [exact Huid|].
        unfold apply_update in Eu.
        destruct (upd_amount transaction_update) as [|[a|]];
          destruct (upd_description transaction_update) as [|[d|]];
          destruct (upd_transaction_type transaction_update) as [|[ty|]];
          destruct (upd_date transaction_update) as [|[dt|]];
          cbn in Eu; try discriminate; inversion Eu; cbn;
          destruct (upd_currency transaction_update);
          destruct (upd_category transaction_update);
          repeat split; reflexivity.
      * unfold apply_update in Eu.
        intros [H|[H|[H|H]]]; rewrite H in Eu; cbn in Eu;
          repeat match type of Eu with
                 | match ?x with _ => _ end = _ => destruct x
                 end; discriminate.
      * apply List.find_some in Hget. tauto.
      * intros r. apply replace_first_keeps.
      * intros r. apply replace_first_In.
      * unfold get_transaction. now rewrite Hget.
    + cbv zeta. split; [reflexivity|]. split; [reflexivity|]. right.
      split; [reflexivity|]. split; [now exists old|].
      unfold apply_update in Eu.
      destruct (upd_amount transaction_update) as [|[a|]]; [| |tauto];
        (destruct (upd_description transaction_update) as [|[d|]]; [| |tauto]);
        (destruct (upd_transaction_type transaction_update) as [|[ty|]];
         [| |tauto]);
        (destruct (upd_date transaction_update) as [|[dt|]]; [| |tauto]);
        cbn in Eu; discriminate.
  - cbn. split; [reflexivity|]. split; [reflexivity|]. left.
    split; [reflexivity|]. intros r Hr. exact (List.find_none _ _ E _ Hr).
Qed.

Lemma filter_sorted {A} (R : A -> A -> Prop) (f : A -> bool) l :
  StronglySorted R l -> StronglySorted R (List.filter f l).
Proof.
  induction 1 as [|x l Hs IH Hall]; cbn; [constructor|].
  destruct (f x); [|exact IH].
  constructor; [exact IH|].
  apply List.Forall_forall. intros y Hy. apply filter_In in Hy.
  rewrite List.Forall_forall in Hall. apply Hall. tauto.
Qed.

Lemma skipn_sorted {A} (R : A -> A -> Prop) n l :
  StronglySorted R l -> StronglySorted R (skipn n l).
Proof.
  revert l. induction n as [|n IH]; intros l H; [exact H|].
  destruct l as [|x l]; [constructor|]. cbn. apply IH.
  now inversion H.
Qed.

Lemma firstn_sorted {A} (R : A -> A -> Prop) n l :
  StronglySorted R l -> StronglySorted R (firstn n l).
Proof.
  revert l. induction n as [|n IH]; intros l H; [constructor|].
  destruct l as [|x l]; [constructor|]. cbn.
  inversion H as [|? ? Hs Hall]; subst.
  constructor; [now apply IH|].
  apply List.Forall_forall. intros y Hy.
  rewrite List.Forall_forall in Hall. apply Hall.
  revert Hy. clear. revert l. induction n as [|n IH]; intros [|z l]; cbn; try tauto.
  intros [->|H]; [now left|right; now apply IH].
Qed.

Lemma sorted_weaken {A} (R S : A -> A -> Prop) l :
  (forall a b, R a b -> S a b) -> StronglySorted R l -> StronglySorted S l.
Proof.
  intros HRS. induction 1 as [|x l Hs IH Hall]; constructor; [exact IH|].
  eapply List.Forall_impl; [|exact Hall]. intros b. apply HRS.
Qed.

Lemma In_firstn {A} n (l : list A) x : In x (firstn n l) -> In x l.
Proof.
  revert l. induction n as [|n IH]; intros [|z l]; cbn; try tauto.
  intros [->|H]; [now left|right; now apply IH].
Qed.

Lemma In_skipn {A} n (l : list A) x : In x (skipn n l) -> In x l.
Proof.
  revert l. induction n as [|n IH]; intros [|z l]; cbn; try tauto.
  intros H. right. now apply IH.
Qed.

(** X11. A page of [get_transactions] holds only stored rows of the caller
    that pass every filter that was given, at most [limit] of them, newest
    first. *)
Theorem get_transactions_page skip limit transaction_type category
    start_date end_date current_user db :
  exists page,
    get_transactions skip limit transaction_type category start_date end_date
                     current_user db = Return page
    /\ (length page <= Z.to_nat limit)%nat
    /\ Forall (fun t =>
                In t db
                /\ matches transaction_type category start_date end_date
                           current_user t = true
                /\ user_id t = Auth.id current_user) page
    /\ StronglySorted
         (fun a b => timestamp (date b) <= timestamp (date a)) page.
Proof.
  eexists. split; [reflexivity|].
  set (m := matches transaction_type category start_date end_date current_user).
  pose proof (CategoryFacts.sort_reverse_Permutation date_key (List.filter m db))
    as Hperm.
  split; [apply firstn_le_length|]. split.
  - apply List.Forall_forall. intros t Ht.
    apply In_firstn, In_skipn in Ht.
    apply (Permutation_in _ Hperm), filter_In in Ht. destruct Ht as [Hin Hm].
    split; [exact Hin|]. split; [exact Hm|].
    unfold m, matches in Hm. rewrite !andb_true_iff in Hm.
    now apply Z.eqb_eq.
  - apply firstn_sorted, skipn_sorted.
    pose proof (CategoryFacts.sort_reverse_sorted date_key (List.filter m db)) as Hs.
    eapply sorted_weaken; [|exact Hs].
    intros a b Hab. unfold Category.desc, date_key in Hab.
    now rewrite Zle_Qle.
Qed.

Lemma firstn_add_skipn {A} a b (q : list A) :
  firstn (a + b) q = firstn a q ++ firstn b (skipn a q).
Proof.
  revert q. induction a as [|a IH]; intros q; [reflexivity|].
  destruct q as [|x q]; cbn.
  - now rewrite firstn_nil.
  - f_equal. apply IH.
Qed.

(** X12. Pages follow one another: the page of [n] rows from the start and
    the page of [m] rows after it make up the page of [n + m] rows. *)
Theorem get_transactions_pages n m transaction_type category start_date
    end_date current_user db first second :
  0 <= n -> 0 <= m ->
  get_transactions 0 n transaction_type category start_date end_date
                   current_user db = Return first ->
  get_transactions n m transaction_type category start_date end_date
                   current_user db = Return second ->
  get_transactions 0 (n + m) transaction_type category start_date end_date
                   current_user db = Return (first ++ second).
Proof.
  intros Hn Hm H1 H2. unfold get_transactions in *.
  inversion H1; inversion H2; subst. f_equal.
  change (Z.to_nat 0) with 0%nat. cbn [skipn].
  rewrite Z2Nat.inj_add by assumption. apply firstn_add_skipn.
Qed.

Lemma get_transactions_pages_witness :
  get_transactions 0 2 None None None None alice [coffee; salary; rent_of_bob]
  = Return ([coffee] ++ [salary]).
Proof.
  apply (get_transactions_pages 1 1 None None None None alice
           [coffee; salary; rent_of_bob] [coffee] [salary]).
  - discriminate.
  - discriminate.
  - reflexivity.
  - reflexivity.
Defined.

Lemma timestamp_midnight y m d :
  timestamp (mk_datetime y m d 0 0 0 0) = ymd2ord y m d * 86400000000.
Proof. unfold timestamp, toordinal. cbn [year month day hour minute second microsecond]. lia. Qed.

Lemma timestamp_bounds dt :
  valid_datetime dt = true ->
  toordinal dt * 86400000000 <= timestamp dt
  < toordinal dt * 86400000000 + 86400000000.
Proof.
  unfold valid_datetime, valid_time. rewrite !andb_true_iff, !Z.leb_le, !Z.ltb_lt.
  intros (_ & H). unfold timestamp. lia.
Qed.

Lemma month_start_ordinal y m d :
  valid_date y m d = true ->
  ymd2ord y 1 1 <= ymd2ord y m 1 <= ymd2ord y m d.
Proof.
  intros H. apply CalendarFacts.valid_date_inv in H. destruct H as (Hy & Hm & Hd).
  unfold ymd2ord, days_before_month.
  assert (Hcases : m = 1 \/ m = 2 \/ m = 3 \/ m = 4 \/ m = 5 \/ m = 6 \/
                   m = 7 \/ m = 8 \/ m = 9 \/ m = 10 \/ m = 11 \/ m = 12) by lia.
  destruct (is_leap y);
    repeat (destruct Hcases as [->|Hcases]); try subst m; cbn; lia.
Qed.

(** X13. The windows are nested: for every valid [now] the year start is
    not after the month start, the month start and the week start are not
    after the day start, the day start is not after [now] and less than a
    day before it, and the week start is less than seven days before the
    day start; so a row the day window selects is selected by the week,
    month and year windows. *)
Theorem windows_nested now current_user db :
  valid_datetime now = true ->
  exists sd sw sm sy,
    PeriodWindow.start_date "day" now = Some sd
    /\ PeriodWindow.start_date "week" now = Some sw
    /\ PeriodWindow.start_date "month" now = Some sm
    /\ PeriodWindow.start_date "year" now = Some sy
    /\ timestamp sy <= timestamp sm <= timestamp sd
    /\ timestamp sw <= timestamp sd <= timestamp now
    /\ timestamp now < timestamp sd + 86400000000
    /\ timestamp sd < timestamp sw + 7 * 86400000000
    /\ forall t, In t (since sd current_user db) ->
                 In t (since sw current_user db)
                 /\ In t (since sm current_user db)
                 /\ In t (since sy current_user db).
Proof.
  intros Hv.
  destruct (PeriodWindowFacts.start_date_week now Hv)
    as (sw & Hsw & Hvw & (Hh & Hmi & Hs & Hus) & Hmon & Hord).
  pose proof (timestamp_bounds now Hv) as Hnow.
  pose proof (timestamp_bounds sw Hvw) as Hw.
  assert (Htw : timestamp sw = toordinal sw * 86400000000)
    by (unfold timestamp; rewrite Hh, Hmi, Hs, Hus; lia).
  unfold valid_datetime in Hv. apply andb_true_iff in Hv. destruct Hv as [Hd _].
  pose proof (month_start_ordinal _ _ _ Hd) as Hmo.
  exists (replace_midnight now), sw,
    (mk_datetime (year now) (month now) 1 0 0 0 0),
    (mk_datetime (year now) 1 1 0 0 0 0).
  split; [reflexivity|]. split; [exact Hsw|].
  split; [reflexivity|]. split; [reflexivity|].
  unfold replace_midnight. rewrite !timestamp_midnight.
  unfold toordinal in Hnow, Hord.
  remember (ymd2ord (year now) (month now) (day now)) as o eqn:Ho.
  assert (Hin : forall s t, timestamp s <= o * 86400000000 ->
                In t (since (mk_datetime (year now) (month now) (day now) 0 0 0 0)
                            current_user db) ->
                In t (since s current_user db)).
  { intros s t Hle Ht. unfold since in *. apply filter_In in Ht.
    destruct Ht as [Hin Hc]. apply filter_In. split; [exact Hin|].
    apply andb_true_iff in Hc. destruct Hc as [Hu Hc].
    rewrite Hu. cbn [andb]. unfold dt_leb in *.
    apply Z.leb_le in Hc. apply Z.leb_le.
    rewrite timestamp_midnight in Hc. rewrite <- Ho in Hc.
    exact (Z.le_trans _ _ _ Hle Hc). }
  assert (Harith :
    ymd2ord (year now) 1 1 * 86400000000
    <= ymd2ord (year now) (month now) 1 * 86400000000 <= o * 86400000000
    /\ timestamp sw <= o * 86400000000 <= timestamp now
    /\ timestamp now < o * 86400000000 + 86400000000
    /\ o * 86400000000 < timestamp sw + 7 * 86400000000).
  { unfold toordinal in Htw. clear - Hmo Hord Hnow Htw. lia. }
  destruct Harith as (A1 & A2 & A3 & A4).
  split; [exact A1|]. split; [exact A2|]. split; [exact A3|].
  split; [exact A4|].
  intros t Ht. split; [|split].
  - apply Hin; [lia|assumption].
  - apply Hin; [|assumption]. rewrite timestamp_midnight. lia.
  - apply Hin; [|assumption]. rewrite timestamp_midnight. lia.
Qed.

Lemma windows_nested_witness :
  exists sd sw,
    PeriodWindow.start_date "day" (mk_datetime 2024 3 15 10 30 45 0) = Some sd
    /\ PeriodWindow.start_date "week" (mk_datetime 2024 3 15 10 30 45 0) = Some sw
    /\ timestamp sw <= timestamp sd.
Proof.
  destruct (windows_nested (mk_datetime 2024 3 15 10 30 45 0) alice [] eq_refl)
    as (sd & sw & sm & sy & H1 & H2 & _ & _ & _ & H6 & _).
  exists sd, sw. exact (conj H1 (conj H2 (proj1 H6))).
Defined.

Lemma sum_as_record kind l :
  sum (map Transform.get_amount
           (List.filter (Transform.type_is kind) (map as_record l)))
  = sum (map amount (List.filter (has_type kind) l)).
Proof.
  f_equal. induction l as [|t l IH]; [reflexivity|].
  cbn [map List.filter]. unfold Transform.type_is at 1, has_type at 1.
  cbn [as_record Transform.type].
  destruct (String.eqb (transaction_type t) kind); cbn [map]; now rewrite IH.
Qed.

(** X14. For every valid [now] the period summary is answered, over the
    rows of the caller on or after the window start; its net amount is
    income minus expenses, and its totals are the totals
    [transform_summarize] gives for the same rows sent as records. *)
Theorem summary_agrees_with_summarize period current_user now db :
  valid_datetime now = true ->
  exists start s s',
    PeriodWindow.start_date period now = Some start
    /\ get_transaction_summary period current_user now db = Return s
    /\ Transform.transform_summarize
         {| Transform.transactions :=
              Some (map as_record (since start current_user db));
            Transform.period := None |} = Transform.Result s'
    /\ total_income s = Transform.total_income s'
    /\ total_expenses s = Transform.total_expenses s'
    /\ net_amount s = Transform.net_amount s'
    /\ net_amount s = (total_income s - total_expenses s)%Q
    /\ transaction_count s = Transform.total_transactions s'
    /\ transaction_count s = Z.of_nat (length (since start current_user db)).
Proof.
  intros Hv.
  assert (Hstart : exists start, PeriodWindow.start_date period now = Some start).
  { unfold PeriodWindow.start_date.
    destruct (String.eqb period "day"); [eauto|].
    destruct (String.eqb period "week") eqn:Ew.
    - destruct (PeriodWindowFacts.start_date_week now Hv) as (sw & Hsw & _).
      unfold PeriodWindow.start_date in Hsw. cbn in Hsw. eauto.
    - destruct (String.eqb period "month"); eauto. }
  destruct Hstart as (start & Hstart).
  exists start. eexists. eexists.
  split; [exact Hstart|]. unfold get_transaction_summary. rewrite Hstart.
  split; [reflexivity|]. split; [reflexivity|].
  cbn [total_income total_expenses net_amount transaction_count
       Transform.total_income Transform.total_expenses Transform.net_amount
       Transform.total_transactions].
  rewrite !sum_as_record, length_map. repeat split.
Qed.

Lemma summary_agrees_with_summarize_witness :
  exists s, get_transaction_summary "month" alice
              (mk_datetime 2024 3 15 10 30 45 0) [coffee; salary; rent_of_bob]
            = Return s
            /\ net_amount s = (total_income s - total_expenses s)%Q.
Proof.
  destruct (summary_agrees_with_summarize "month" alice
              (mk_datetime 2024 3 15 10 30 45 0) [coffee; salary; rent_of_bob]
              eq_refl)
    as (start & s & s' & _ & Hs & _ & _ & _ & _ & Hn & _).
  exists s. exact (conj Hs Hn).
Defined.

(** X15. The period summary of a user does not depend on rows of other
    users nor on rows before the window start: with such a row added
    anywhere in the table the answer is the same. *)
Theorem summary_ignores_other_rows period current_user now db1 t db2 :
  (user_id t <> Auth.id current_user
   \/ exists start, PeriodWindow.start_date period now = Some start
                    /\ timestamp (date t) < timestamp start) ->
  get_transaction_summary period current_user now (db1 ++ t :: db2)
  = get_transaction_summary period current_user now (db1 ++ db2).
Proof.
  intros H. unfold get_transaction_summary.
  destruct (PeriodWindow.start_date period now) as [start|]; [|reflexivity].
  assert (Hs : since start current_user (db1 ++ t :: db2)
               = since start current_user (db1 ++ db2)).
  { unfold since. rewrite !List.filter_app. cbn [List.filter].
    assert (Hf : (user_id t =? Auth.id current_user) && dt_leb start (date t)
                 = false).
    { destruct H as [Hu|(s0 & Hs0 & Hlt)].
      - apply Z.eqb_neq in Hu. now rewrite Hu.
      - inversion Hs0; subst s0. unfold dt_leb.
        assert (Hb : (timestamp start <=? timestamp (date t)) = false)
          by (apply Z.leb_gt; exact Hlt).
        rewrite Hb. apply andb_false_r. }
    now rewrite Hf. }
  now rewrite Hs.
Qed.

Lemma summary_ignores_other_rows_witness :
  get_transaction_summary "month" alice (mk_datetime 2024 3 15 10 30 45 0)
    ([coffee] ++ rent_of_bob :: [salary])
  = get_transaction_summary "month" alice (mk_datetime 2024 3 15 10 30 45 0)
      ([coffee] ++ [salary]).
Proof.
  apply (summary_ignores_other_rows "month" alice
           (mk_datetime 2024 3 15 10 30 45 0) [coffee] rent_of_bob [salary]).
  left. discriminate.
Defined.

End LedgerFacts.

(** ** Budget progress, the whole request *)

Module BudgetProgressFacts.
Import Calendar Exn Num NumFacts Handlers BudgetProgress.
Local Open Scope Q_scope.

Lemma progress_entry_status current_user transactions b :
  one_of_three (progress_entry_of current_user transactions b).
Proof.
  unfold one_of_three, progress_entry_of, Budget.budget_progress_entry.
  cbn [progress Budget.status].
  destruct (BudgetFacts.budget_status_cases
              (Budget.progress_percentage
                 (spent_amount_of current_user b transactions) (amount b)))
    as [(_ & H)|[(_ & _ & H)|(_ & H)]]; rewrite H; tauto.
Qed.

Lemma status_three_way (l : list progress_entry) :
  Forall one_of_three l ->
  (length l = length (List.filter (has_status "good") l)
              + length (List.filter (has_status "warning") l)
              + length (List.filter (has_status "exceeded") l))%nat.
Proof.
  induction 1 as [|e l He _ IH]; [reflexivity|].
  cbn [List.filter length].
  destruct He as [H|[H|H]];
    assert (Hg : has_status "good" e = String.eqb (Budget.status (progress e)) "good")
      by reflexivity;
    assert (Hw : has_status "warning" e
                 = String.eqb (Budget.status (progress e)) "warning")
      by reflexivity;
    assert (Hx : has_status "exceeded" e
                 = String.eqb (Budget.status (progress e)) "exceeded")
      by reflexivity;
    rewrite H in Hg, Hw, Hx; cbn in Hg, Hw, Hx; rewrite Hg, Hw, Hx;
    cbn [length]; lia.
Qed.

(** X16. Every reported budget is counted once: the counts of "good",
    "warning" and "exceeded" budgets add up to the number of budgets
    reported, which is the number of active budgets of the caller. *)
Theorem budget_counts_add_up current_user all_budgets transactions :
  exists report,
    get_budget_progress current_user all_budgets transactions = Return report
    /\ (total_budgets report
        = active_budgets report + warning_budgets report
          + exceeded_budgets report)%Z
    /\ total_budgets report
       = Z.of_nat (length (List.filter (reported current_user) all_budgets))
    /\ total_budgets report = Z.of_nat (length (budgets report)).
Proof.
  eexists. split; [reflexivity|].
  cbn [total_budgets active_budgets warning_budgets exceeded_budgets budgets].
  set (entries := map (progress_entry_of current_user transactions)
                      (List.filter (reported current_user) all_budgets)).
  pose proof (CategoryFacts.sort_reverse_Permutation reported_percentage entries)
    as Hperm.
  assert (Hall : Forall one_of_three
                   (Category.sort_reverse reported_percentage entries)).
  { eapply Permutation_Forall; [symmetry; exact Hperm|].
    apply List.Forall_forall. intros e He. apply in_map_iff in He.
    destruct He as (b & <- & _). apply progress_entry_status. }
  split; [|split].
  - rewrite (status_three_way _ Hall). lia.
  - rewrite (Permutation_length Hperm). unfold entries.
    now rewrite length_map.
  - reflexivity.
Qed.

(** X17. The report lists the active budgets of the caller, each once and
    no other, from the highest reported percentage to the lowest. *)
Theorem budget_report_order current_user all_budgets transactions :
  exists report,
    get_budget_progress current_user all_budgets transactions = Return report
    /\ Permutation (budgets report)
         (map (progress_entry_of current_user transactions)
              (List.filter (reported current_user) all_budgets))
    /\ StronglySorted
         (fun a b => reported_percentage b <= reported_percentage a)
         (budgets report).
Proof.
  eexists. split; [reflexivity|]. cbn [budgets]. split.
  - apply CategoryFacts.sort_reverse_Permutation.
  - apply (CategoryFacts.sort_reverse_sorted reported_percentage).
Qed.

Lemma progress_positive spent target :
  0 < target ->
  Budget.progress_percentage spent target == spent / target * 100.
Proof.
  intros H. unfold Budget.progress_percentage.
  apply Qltb_lt in H. now rewrite H.
Qed.

Lemma scaled_le (spent target c : Q) :
  0 < target -> (c <= spent / target * 100 <-> c * target <= spent * 100).
Proof.
  intros H. split; intros Hc.
  - assert (E : spent * 100 == spent / target * 100 * target) by (field; lra).
    rewrite E. apply Qmult_le_compat_r; lra.
  - apply (Qmult_le_r _ _ target H).
    assert (E : spent / target * 100 * target == spent * 100) by (field; lra).
    now rewrite E.
Qed.

(** X18. For a budget with a positive amount the status is "exceeded"
    exactly when spent is at least the budget, it is never "good" once
    spent is at least four fifths of the budget, and the remaining amount
    is negative exactly when spent is above the budget. (Just below four
    fifths the rounded quotient of the code can still reach 80, so that
    threshold is stated from above only.) *)
Theorem budget_status_by_amounts (budget spent : Q) :
  0 < budget ->
  let e := Budget.budget_progress_entry budget spent in
  (Budget.status e = "exceeded" <-> budget <= spent)
  /\ ((4 # 5) * budget <= spent -> Budget.status e <> "good")
  /\ (Budget.remaining_amount e < 0 <-> budget < spent).
Proof.
  intros Hpos. cbv zeta.
  unfold Budget.budget_progress_entry.
  cbn [Budget.status Budget.remaining_amount].
  pose proof (progress_positive spent budget Hpos) as Hp.
  pose proof (scaled_le spent budget 100 Hpos) as H100.
  pose proof (scaled_le spent budget 80 Hpos) as H80.
  rewrite <- Hp in H100, H80.
  destruct (BudgetFacts.budget_status_cases
              (Budget.progress_percentage spent budget))
    as [(Ha & Hs)|[(Ha & Hb & Hs)|(Ha & Hs)]]; rewrite Hs;
    set (p := Budget.progress_percentage spent budget) in *.
  - split; [|split].
    + split; [intros _; apply H100 in Ha; lra|reflexivity].
    + discriminate.
    + lra.
  - split; [|split].
    + split; [discriminate|]. intros H. exfalso.
      assert (100 <= p) by (apply H100; lra). lra.
    + discriminate.
    + lra.
  - split; [|split].
    + split; [discriminate|]. intros H. exfalso.
      assert (100 <= p) by (apply H100; lra). lra.
    + intros H. exfalso. assert (80 <= p) by (apply H80; lra). lra.
    + lra.
Qed.

Lemma budget_status_by_amounts_witness :
  Budget.status (Budget.budget_progress_entry 100 120) = "exceeded"
  /\ Budget.status (Budget.budget_progress_entry 100 85) <> "good".
Proof.
  split.
  - refine (proj2 (proj1 (budget_status_by_amounts 100 120 _)) _);
      [reflexivity|discriminate].
  - refine (proj1 (proj2 (budget_status_by_amounts 100 85 _)) _);
      [reflexivity|discriminate].
Defined.

(** X19. The report of a user depends only on the user's own active
    budgets and own expenses: a budget that is another user's or not
    active, and a transaction that is another user's or not an expense,
    can be added anywhere without changing the answer. *)
Theorem budget_progress_ignores_others current_user bs1 b bs2 ts1 t ts2 :
  reported current_user b = false ->
  (Ledger.user_id t <> Auth.id current_user
   \/ Ledger.transaction_type t <> "expense"%string) ->
  get_budget_progress current_user (bs1 ++ b :: bs2) (ts1 ++ t :: ts2)
  = get_budget_progress current_user (bs1 ++ bs2) (ts1 ++ ts2).
Proof.
  intros Hb Ht. unfold get_budget_progress.
  assert (Hbs : List.filter (reported current_user) (bs1 ++ b :: bs2)
                = List.filter (reported current_user) (bs1 ++ bs2)).
  { rewrite !List.filter_app. cbn [List.filter]. now rewrite Hb. }
  assert (Hts : forall budget,
            progress_entry_of current_user (ts1 ++ t :: ts2) budget
            = progress_entry_of current_user (ts1 ++ ts2) budget).
  { intros budget. unfold progress_entry_of, spent_amount_of.
    rewrite !List.filter_app. cbn [List.filter].
    assert (Hc : counts_for current_user budget t = false).
    { unfold counts_for. destruct Ht as [Hu|Hty].
      - apply Z.eqb_neq in Hu. now rewrite Hu.
      - apply String.eqb_neq in Hty. rewrite Hty.
        destruct (Ledger.user_id t =? Auth.id current_user)%Z; cbn [andb];
          [|reflexivity].
        now destruct (match category budget with
                      | Some c => Ledger.eq_opt (Ledger.category t) c
                      | None => true
                      end). }
    now rewrite Hc. }
  rewrite Hbs, (map_ext _ _ Hts). reflexivity.
Qed.

Lemma budget_progress_ignores_others_witness :
  get_budget_progress Ledger.alice ([groceries] ++ hidden :: [])
    ([Ledger.coffee] ++ Ledger.rent_of_bob :: [Ledger.salary])
  = get_budget_progress Ledger.alice ([groceries] ++ [])
      ([Ledger.coffee] ++ [Ledger.salary]).
Proof.
  apply (budget_progress_ignores_others Ledger.alice [groceries] hidden []
           [Ledger.coffee] Ledger.rent_of_bob [Ledger.salary]).
  - reflexivity.
  - left. discriminate.
Defined.

End BudgetProgressFacts.

(** ** The other transformations *)

Module TransformsFacts.
Import Calendar Exn Num NumFacts Handlers Transform Transforms.

Lemma categorize_step_insert categories t :
  categorize_step categories t =
  <[default "Uncategorized" (Transform.category t) :=
      add_one (add_total (get_amount t)
                 (default empty_group
                    (categories !! default "Uncategorized" (Transform.category t))))]>
    categories.
Proof.
  unfold categorize_step. set (k := default "Uncategorized" (Transform.category t)).
  apply map_eq. intros k'. destruct (decide (k' = k)) as [->|Hne].
  - rewrite lookup_insert_eq.
    destruct (categories !! k) as [g|] eqn:Eg; cbn;
      rewrite !lookup_alter_eq, ?lookup_insert_eq, ?Eg; reflexivity.
  - rewrite lookup_insert_ne by congruence.
    destruct (categories !! k) as [g|] eqn:Eg; cbn;
      rewrite !lookup_alter_ne, ?lookup_insert_ne by congruence; reflexivity.
Qed.

Lemma categorize_fold ts categories k :
  fold_left categorize_step ts categories !! k
  = fold_left grow (List.filter (in_category k) ts) (categories !! k).
Proof.
  revert categories. induction ts as [|t ts IH]; intros categories; [reflexivity|].
  cbn [fold_left List.filter]. rewrite IH, categorize_step_insert.
  unfold in_category at 2.
  destruct (String.eqb (default "Uncategorized" (Transform.category t)) k) eqn:E.
  - apply String.eqb_eq in E. subst k. cbn [fold_left].
    now rewrite lookup_insert_eq.
  - apply String.eqb_neq in E. now rewrite lookup_insert_ne.
Qed.

Lemma grow_fold rs g :
  fold_left grow rs (Some g)
  = Some {| group_total := fold_left Qplus (map get_amount rs) (group_total g);
            group_count := group_count g + Z.of_nat (length rs) |}.
Proof.
  revert g. induction rs as [|r rs IH]; intros g.
  - destruct g as [tot cnt]. cbn [fold_left map length group_total group_count].
    do 2 f_equal. change (Z.of_nat 0) with 0. lia.
  - cbn [fold_left map length]. unfold grow at 2.
    change (default empty_group (Some g)) with g.
    rewrite IH. cbn [add_one add_total group_total group_count].
    do 2 f_equal. rewrite Nat2Z.inj_succ. lia.
Qed.

(** X20. [transform_categorize] has a group for a category exactly when a
    record is of that category, a record without category being of
    "Uncategorized"; the group holds the sum of the amounts of those records
    (0 for a missing amount) and their number. *)
Theorem categorize_groups (ts : list transaction) (p : option string) (k : string) :
  exists categories,
    transform_categorize {| transactions := Some ts; period := p |}
    = Result categories
    /\ categories !! k
       = match List.filter (in_category k) ts with
         | [] => None
         | rs => Some {| group_total := sum (map get_amount rs);
                         group_count := Z.of_nat (length rs) |}
         end.
Proof.
  eexists. split; [reflexivity|].
  rewrite categorize_fold, lookup_empty.
  destruct (List.filter (in_category k) ts) as [|r rs]; [reflexivity|].
  cbn [fold_left]. unfold grow at 2. cbn [default]. rewrite grow_fold.
  cbn [add_one add_total group_total group_count empty_group].
  unfold sum. cbn [map fold_left length]. f_equal. f_equal. lia.
Qed.

Lemma total_count_insert {A} (cnt : A -> Z) (m : gmap string A) k v :
  total_count cnt (<[k := v]> m)
  = total_count cnt m - match m !! k with Some old => cnt old | None => 0 end
    + cnt v.
Proof.
  unfold total_count.
  assert (Hins : forall (m' : gmap string A) v', m' !! k = None ->
            map_fold (fun _ v acc => cnt v + acc) 0 (<[k := v']> m')
            = cnt v' + map_fold (fun _ v acc => cnt v + acc) 0 m').
  { intros m' v' Hnone.
    apply (map_fold_insert_L (fun _ v acc => cnt v + acc)); [|exact Hnone].
    intros; lia. }
  destruct (m !! k) as [old|] eqn:E.
  - rewrite <- (insert_delete_eq m k v).
    rewrite <- (insert_delete_id m k old E) at 2.
    rewrite !Hins by apply lookup_delete_eq. lia.
  - rewrite Hins by exact E. lia.
Qed.

Lemma categorize_step_count categories t :
  total_count group_count (categorize_step categories t)
  = total_count group_count categories + 1.
Proof.
  rewrite categorize_step_insert, total_count_insert.
  destruct (categories !! _) as [g|]; cbn; lia.
Qed.

(** X21. [transform_categorize] counts every record once: the counts of
    its groups add up to the number of records. *)
Theorem categorize_counts_add_up (ts : list transaction) (p : option string) :
  exists categories,
    transform_categorize {| transactions := Some ts; period := p |}
    = Result categories
    /\ total_count group_count categories = Z.of_nat (length ts).
Proof.
  eexists. split; [reflexivity|].
  assert (H : forall acc,
            total_count group_count (fold_left categorize_step ts acc)
            = total_count group_count acc + Z.of_nat (length ts)).
  { induction ts as [|t ts IH]; intros acc; cbn [fold_left length].
    - lia.
    - rewrite IH, categorize_step_count. lia. }
  rewrite H. unfold total_count. rewrite map_fold_empty. lia.
Qed.

Local Open Scope Q_scope.

Lemma list_min_spec xs x :
  list_min x xs <= x
  /\ Forall (fun y => list_min x xs <= y) xs
  /\ In (list_min x xs) (x :: xs).
Proof.
  revert x. induction xs as [|y ys IH]; intros x.
  - cbn. repeat split; [lra|constructor|now left].
  - cbn [list_min fold_left]. fold (list_min (if Qltb y x then y else x) ys).
    destruct (IH (if Qltb y x then y else x)) as (H1 & H2 & H3).
    destruct (Qltb y x) eqn:E.
    + apply Qltb_lt in E. split; [lra|]. split.
      * constructor; [exact H1|exact H2].
      * destruct H3 as [H3|H3]; [right; left; exact H3|right; right; exact H3].
    + apply Qltb_ge in E. split; [exact H1|]. split.
      * constructor; [lra|exact H2].
      * destruct H3 as [H3|H3]; [left; exact H3|right; right; exact H3].
Qed.

Lemma list_max_spec xs x :
  x <= list_max x xs
  /\ Forall (fun y => y <= list_max x xs) xs
  /\ In (list_max x xs) (x :: xs).
Proof.
  revert x. induction xs as [|y ys IH]; intros x.
  - cbn. repeat split; [lra|constructor|now left].
  - cbn [list_max fold_left]. fold (list_max (if Qltb x y then y else x) ys).
    destruct (IH (if Qltb x y then y else x)) as (H1 & H2 & H3).
    destruct (Qltb x y) eqn:E.
    + apply Qltb_lt in E. split; [lra|]. split.
      * constructor; [exact H1|exact H2].
      * destruct H3 as [H3|H3]; [right; left; exact H3|right; right; exact H3].
    + apply Qltb_ge in E. split; [exact H1|]. split.
      * constructor; [lra|exact H2].
      * destruct H3 as [H3|H3]; [left; exact H3|right; right; exact H3].
Qed.

Lemma normalized_amount_range lo hi a :
  lo <= a <= hi -> 0 <= normalized_amount lo hi a <= 1.
Proof.
  intros [Hl Hh]. unfold normalized_amount.
  destruct (Qeq_bool hi lo) eqn:E; cbn [negb]; [lra|].
  assert (Hne : ~ hi == lo)
    by (intros Heq; apply Qeq_bool_iff in Heq; congruence).
  assert (Hd : 0 < hi - lo) by lra.
  split.
  - apply Qle_shift_div_l; [exact Hd|lra].
  - apply Qle_shift_div_r; [exact Hd|lra].
Qed.

Lemma normalized_amount_mono lo hi a b :
  lo <= hi -> a <= b -> normalized_amount lo hi a <= normalized_amount lo hi b.
Proof.
  intros Hlh Hab. unfold normalized_amount.
  destruct (Qeq_bool hi lo) eqn:E; cbn [negb]; [lra|].
  assert (Hne : ~ hi == lo)
    by (intros Heq; apply Qeq_bool_iff in Heq; congruence).
  assert (Hd : 0 < hi - lo) by lra.
  unfold Qdiv. apply Qmult_le_compat_r; [lra|].
  apply Qlt_le_weak, Qinv_lt_0_compat, Hd.
Qed.

Lemma normalized_amount_ends lo hi :
  ~ hi == lo ->
  normalized_amount lo hi lo == 0 /\ normalized_amount lo hi hi == 1.
Proof.
  intros Hne. unfold normalized_amount.
  destruct (Qeq_bool hi lo) eqn:E; cbn [negb].
  - apply Qeq_bool_iff in E. contradiction.
  - split; field; lra.
Qed.

(** X22. [transform_normalize] of a list that is not empty keeps the
    records in their order, echoes the least and the greatest amount, both
    amounts of records, and gives every record a value between 0 and 1;
    when the two differ a record of the least amount gets 0 and one of the
    greatest gets 1, and when they are equal every record gets 0. *)
Theorem normalize_range (t : transaction) (ts : list transaction)
    (p : option string) :
  exists n,
    transform_normalize {| transactions := Some (t :: ts); period := p |}
    = Result n
    /\ map fst (normalized_transactions n) = t :: ts
    /\ Forall (fun tv => original_min n <= get_amount (fst tv) <= original_max n
                         /\ 0 <= snd tv <= 1
                         /\ (original_max n == original_min n -> snd tv = 0))
              (normalized_transactions n)
    /\ (exists lo, In lo (normalized_transactions n)
                   /\ get_amount (fst lo) = original_min n
                   /\ (~ original_max n == original_min n -> snd lo == 0))
    /\ (exists hi, In hi (normalized_transactions n)
                   /\ get_amount (fst hi) = original_max n
                   /\ (~ original_max n == original_min n -> snd hi == 1)).
Proof.
  eexists. split; [reflexivity|].
  cbn [map original_min original_max normalized_transactions].
  set (first := get_amount t). set (rest := map get_amount ts).
  destruct (list_min_spec rest first) as (Hm1 & Hm2 & Hm3).
  destruct (list_max_spec rest first) as (HM1 & HM2 & HM3).
  set (lo := list_min first rest) in *. set (hi := list_max first rest) in *.
  assert (Hbound : forall r, In r (t :: ts) -> lo <= get_amount r <= hi).
  { intros r [<-|Hr]; [fold first; lra|].
    rewrite List.Forall_forall in Hm2, HM2.
    assert (In (get_amount r) rest) by (unfold rest; now apply in_map).
    split; [now apply Hm2|now apply HM2]. }
  assert (Hattained : forall v, In v (first :: rest) ->
            exists r, In r (t :: ts) /\ get_amount r = v).
  { intros v [<-|Hv]; [exists t; split; [now left|reflexivity]|].
    unfold rest in Hv. apply in_map_iff in Hv. destruct Hv as (r & <- & Hr).
    exists r. split; [now right|reflexivity]. }
  split; [|split; [|split]].
  - f_equal. rewrite map_map. cbn [fst]. apply map_id.
  - change (Forall (fun tv => lo <= get_amount (fst tv) <= hi
                            /\ 0 <= snd tv <= 1 /\ (hi == lo -> snd tv = 0))
              (map (fun r => (r, normalized_amount lo hi (get_amount r)))
                   (t :: ts))).
    apply List.Forall_forall. intros tv Htv. apply in_map_iff in Htv.
    destruct Htv as (r & <- & Hr). cbn [fst snd].
    pose proof (Hbound r Hr) as Hb.
    split; [exact Hb|]. split; [now apply normalized_amount_range|].
    intros Heq. unfold normalized_amount.
    apply Qeq_bool_iff in Heq. now rewrite Heq.
  - destruct (Hattained lo Hm3) as (r & Hr & Hv).
    exists (r, normalized_amount lo hi (get_amount r)). split; [|split].
    + exact (in_map (fun r => (r, normalized_amount lo hi (get_amount r)))
                    _ _ Hr).
    + exact Hv.
    + intros Hne. cbn [fst snd]. rewrite Hv.
      now apply normalized_amount_ends.
  - destruct (Hattained hi HM3) as (r & Hr & Hv).
    exists (r, normalized_amount lo hi (get_amount r)). split; [|split].
    + exact (in_map (fun r => (r, normalized_amount lo hi (get_amount r)))
                    _ _ Hr).
    + exact Hv.
    + intros Hne. cbn [fst snd]. rewrite Hv.
      now apply normalized_amount_ends.
Qed.

(** X23. [transform_normalize] keeps the order of the amounts: of two
    records of one request, the one with the smaller amount never gets the
    greater value; an empty list and a missing ["transactions"] key give
    their two error payloads. *)
Theorem normalize_monotone (ts : list transaction) (p : option string) :
  transform_normalize {| transactions := None; period := p |}
  = Error "No transactions data provided"
  /\ transform_normalize {| transactions := Some []; period := p |}
    = Error "No valid amounts found"
  /\ match transform_normalize {| transactions := Some ts; period := p |} with
     | Result n =>
       forall a b, In a (normalized_transactions n) ->
                   In b (normalized_transactions n) ->
                   get_amount (fst a) <= get_amount (fst b) -> snd a <= snd b
     | Error _ => ts = []
     end.
Proof.
  split; [reflexivity|]. split; [reflexivity|].
  destruct ts as [|t ts]; [reflexivity|].
  cbn [transform_normalize transactions map normalized_transactions].
  set (first := get_amount t). set (rest := map get_amount ts).
  destruct (list_min_spec rest first) as (Hm1 & _).
  destruct (list_max_spec rest first) as (HM1 & _).
  intros a b Ha Hb Hab.
  change (In a (map (fun r => (r, normalized_amount (list_min first rest)
                                     (list_max first rest) (get_amount r)))
                    (t :: ts))) in Ha.
  change (In b (map (fun r => (r, normalized_amount (list_min first rest)
                                     (list_max first rest) (get_amount r)))
                    (t :: ts))) in Hb.
  apply in_map_iff in Ha, Hb.
  destruct Ha as (ra & <- & _). destruct Hb as (rb & <- & _).
  cbn [fst snd] in *. apply normalized_amount_mono; [lra|exact Hab].
Qed.

Local Open Scope Z_scope.

(** X24. The endpoint answers the tag "summarize" with the result of
    [transform_summarize] on the request, "categorize" with that of
    [transform_categorize], "normalize" with that of [transform_normalize]
    and "aggregate" with that of [transform_aggregate], each with the tag,
    the request and the time; a request without ["transactions"] is
    answered like any other, its result being the error payload of the
    four transformations; for any other tag the 400 raised in the handler
    is replaced by the 500. *)
Theorem transform_dispatch fromisoformat (d : data) (tag : string)
    (now : datetime) :
  let answer := transform_financial_data fromisoformat d tag now in
  let response (result : transformed) :=
    Return {| transformation_type := tag; input_data := d;
              result_of := result; timestamp := now |} in
  (tag = "summarize"%string ->
   answer = response (Summarized (transform_summarize d)))
  /\ (tag = "categorize"%string ->
      answer = response (Categorized (transform_categorize d)))
  /\ (tag = "normalize"%string ->
      answer = response (Normalized (transform_normalize d)))
  /\ (tag = "aggregate"%string ->
      answer = response (Aggregated (transform_aggregate fromisoformat d)))
  /\ (~ In tag ["summarize"; "categorize"; "normalize"; "aggregate"]%string ->
      answer = Raise internal_server_error)
  /\ (transactions d = None ->
      transform_summarize d = Error "No transactions data provided"
      /\ transform_categorize d = Error "No transactions data provided"
      /\ transform_normalize d = Error "No transactions data provided"
      /\ transform_aggregate fromisoformat d
         = Error "No transactions data provided").
Proof.
  cbv zeta. unfold transform_financial_data.
  split; [|split; [|split; [|split; [|split]]]].
  - now intros ->.
  - now intros ->.
  - now intros ->.
  - now intros ->.
  - intros Hnot. cbn [In] in Hnot.
    destruct (String.eqb tag "summarize") eqn:E1;
      [apply String.eqb_eq in E1; intuition congruence|].
    destruct (String.eqb tag "categorize") eqn:E2;
      [apply String.eqb_eq in E2; intuition congruence|].
    destruct (String.eqb tag "normalize") eqn:E3;
      [apply String.eqb_eq in E3; intuition congruence|].
    destruct (String.eqb tag "aggregate") eqn:E4;
      [apply String.eqb_eq in E4; intuition congruence|].
    reflexivity.
  - unfold transform_summarize, transform_categorize, transform_normalize,
      transform_aggregate.
    intros ->. repeat split.
Qed.

Lemma transform_dispatch_witness :
  transform_financial_data fromisoformat_date_only
    {| transactions := None; period := None |} "normalize"
    (mk_datetime 2024 3 15 10 30 45 0)
  = Return {| transformation_type := "normalize";
              input_data := {| transactions := None; period := None |};
              result_of := Normalized (Error "No transactions data provided");
              timestamp := mk_datetime 2024 3 15 10 30 45 0 |}
  /\ transform_financial_data fromisoformat_date_only
       {| transactions := Some []; period := None |} "median"
       (mk_datetime 2024 3 15 10 30 45 0)
     = Raise internal_server_error.
Proof.
  split.
  - exact (proj1 (proj2 (proj2
             (transform_dispatch fromisoformat_date_only
                {| transactions := None; period := None |} "normalize"
                (mk_datetime 2024 3 15 10 30 45 0)))) eq_refl).
  - refine (proj1 (proj2 (proj2 (proj2 (proj2
             (transform_dispatch fromisoformat_date_only
                {| transactions := Some []; period := None |} "median"
                (mk_datetime 2024 3 15 10 30 45 0)))))) _).
    cbn [In]. intuition discriminate.
Defined.

Lemma bucket_fold rs b :
  fold_left (fun ob t => Some (add_record t (default empty_bucket ob)))
            rs (Some b)
  = Some {| income :=
              fold_left Qplus (map get_amount (List.filter is_income rs))
                        (income b);
            expenses :=
              fold_left Qplus
                        (map get_amount
                             (List.filter (fun t => negb (is_income t)) rs))
                        (expenses b);
            count := count b + Z.of_nat (length rs) |}.
Proof.
  revert b. induction rs as [|r rs IH]; intros b.
  - destruct b as [i e c]. cbn [fold_left map List.filter length income expenses count].
    do 2 f_equal. change (Z.of_nat 0) with 0. lia.
  - cbn [fold_left List.filter length].
    change (default empty_bucket (Some b)) with b.
    rewrite IH. unfold add_record. fold (is_income r).
    destruct (is_income r); cbn [negb map fold_left add_count add_income
                                 add_expenses income expenses count];
      do 2 f_equal; rewrite Nat2Z.inj_succ; lia.
Qed.

Lemma aggregate_count_step fromisoformat period aggregated t :
  total_count count (aggregate_step fromisoformat period aggregated t)
  = total_count count aggregated
    + match parsed_date fromisoformat t with Some _ => 1 | None => 0 end.
Proof.
  destruct (parsed_date fromisoformat t) as [d|] eqn:E.
  - rewrite (TransformFacts.aggregate_step_add _ _ _ _ d E), total_count_insert.
    unfold add_record.
    destruct (aggregated !! period_key period d) as [b|];
      [change (default empty_bucket (Some b)) with b
      |change (default empty_bucket None) with empty_bucket];
      destruct (String.eqb (default "expense" (type t)) "income");
      cbn [add_count add_income add_expenses count empty_bucket]; lia.
  - rewrite (TransformFacts.aggregate_step_skip _ _ _ _ E). lia.
Qed.

(** X25. [transform_aggregate] has a bucket for a key exactly when a record
    has a date that parses to that key, under the period of the request or
    "month" without one; the bucket counts those records, its income is the
    sum of the amounts of those of type "income" and its expenses the sum
    of the amounts of all the others; the counts of the buckets add up to
    the number of records with a date that parses. *)
Theorem aggregate_buckets fromisoformat (ts : list transaction)
    (p : option string) (k : string) :
  exists r,
    transform_aggregate fromisoformat {| transactions := Some ts; period := p |}
    = Result r
    /\ result_period r = default "month" p
    /\ aggregated_data r !! k
       = match List.filter (lands_in fromisoformat (default "month" p) k) ts with
         | [] => None
         | rs =>
           Some {| income := sum (map get_amount (List.filter is_income rs));
                   expenses :=
                     sum (map get_amount
                              (List.filter (fun t => negb (is_income t)) rs));
                   count := Z.of_nat (length rs) |}
         end
    /\ total_count count (aggregated_data r)
       = Z.of_nat (length (List.filter
                             (fun t => match parsed_date fromisoformat t with
                                       | Some _ => true
                                       | None => false
                                       end) ts)).
Proof.
  eexists. split; [reflexivity|].
  cbn [result_period aggregated_data transactions period].
  split; [reflexivity|]. split.
  - rewrite TransformFacts.aggregate_bucket, lookup_empty.
    destruct (List.filter _ ts) as [|r rs]; [reflexivity|].
    cbn [fold_left]. change (default empty_bucket None) with empty_bucket.
    rewrite bucket_fold. unfold add_record. fold (is_income r).
    unfold sum. cbn [List.filter length].
    destruct (is_income r); cbn [negb map fold_left add_count add_income
                                 add_expenses income expenses count empty_bucket];
      do 2 f_equal; rewrite Nat2Z.inj_succ; lia.
  - assert (H : forall acc,
              total_count count
                (fold_left (aggregate_step fromisoformat (default "month" p)) ts acc)
              = total_count count acc
                + Z.of_nat (length (List.filter
                                      (fun t => match parsed_date fromisoformat t with
                                                | Some _ => true
                                                | None => false
                                                end) ts))).
    { induction ts as [|t ts IH]; intros acc; cbn [fold_left List.filter length].
      - lia.
      - rewrite IH, aggregate_count_step.
        destruct (parsed_date fromisoformat t); cbn [length]; lia. }
    rewrite H. unfold total_count. rewrite map_fold_empty. lia.
Qed.

End TransformsFacts.

(** ** Currency conversion, the outcomes *)

Module CurrencyMoreFacts.
Import Exn Num NumFacts Currency CurrencyFacts.
Local Open Scope exn_scope.

Lemma upper_ascii_idem c : upper_ascii (upper_ascii c) = upper_ascii c.
Proof.
  destruct c as [[] [] [] [] [] [] [] []]; reflexivity.
Qed.

Lemma upper_idem s : upper (upper s) = upper s.
Proof.
  induction s as [|c s IH]; [reflexivity|].
  cbn. now rewrite upper_ascii_idem, IH.
Qed.

(** X27. For codes of ASCII characters: a conversion is answered exactly
    when the rate service answers 200 with a document whose rates hold the
    target code in upper case, and the answer is then the amount, both
    codes in upper case, the rate of the document, the date of the
    document and the product of amount and rate rounded to two places,
    within half a hundredth of it; in every other case the answer is the
    500. The codes are read without regard to case: the request with both
    codes in upper case is answered the same. *)
Theorem convert_currency_outcome client_get amount from_currency to_currency :
  isascii from_currency = true -> isascii to_currency = true ->
  let answer := convert_currency client_get amount from_currency to_currency in
  (forall r,
     answer = Return r <->
     exists resp doc rate,
       client_get (currency_api_url +:+ "/" +:+ upper from_currency)
       = Return resp
       /\ status_code resp = 200
       /\ json resp = Return doc
       /\ default ∅ (rates doc) !! upper to_currency = Some rate
       /\ r = {| original_amount := amount;
                 original_currency := upper from_currency;
                 converted_amount := round2 (amount * rate);
                 target_currency := upper to_currency;
                 conversion_rate := rate;
                 last_updated := date doc |})
  /\ (forall r, answer = Return r ->
        (Qabs (converted_amount r - amount * conversion_rate r) <= 1 # 200)%Q)
  /\ (forall e, answer = Raise e -> e = internal_server_error)
  /\ convert_currency client_get amount (upper from_currency) (upper to_currency)
     = answer.
Proof.
  intros _ _. cbv zeta.
  assert (Hfwd : forall r,
             convert_currency client_get amount from_currency to_currency
             = Return r ->
             exists resp doc rate,
               client_get (currency_api_url +:+ "/" +:+ upper from_currency)
               = Return resp
               /\ status_code resp = 200
               /\ json resp = Return doc
               /\ default ∅ (rates doc) !! upper to_currency = Some rate
               /\ r = {| original_amount := amount;
                         original_currency := upper from_currency;
                         converted_amount := round2 (amount * rate);
                         target_currency := upper to_currency;
                         conversion_rate := rate;
                         last_updated := date doc |}).
  { intros r E. unfold convert_currency, try_except, bind in E.
    destruct (client_get _) as [resp|e1] eqn:Ec; [|discriminate].
    destruct (status_code resp =? 200) eqn:Es; cbn [negb] in E; [|discriminate].
    destruct (json resp) as [doc|e2] eqn:Ej; [|discriminate].
    destruct (default ∅ (rates doc) !! upper to_currency) as [rate|] eqn:Er;
      [|discriminate].
    inversion E; subst r. exists resp, doc, rate.
    apply Z.eqb_eq in Es. repeat (split; [assumption || reflexivity|]).
    reflexivity. }
  split; [|split; [|split]].
  - intros r. split; [apply Hfwd|].
    intros (resp & doc & rate & Hc & Hs & Hj & Hr & ->).
    unfold convert_currency, try_except, bind.
    rewrite Hc, Hs, Hj. cbn [Z.eqb Pos.eqb negb]. now rewrite Hr.
  - intros r E. destruct (Hfwd r E) as (resp & doc & rate & _ & _ & _ & _ & ->).
    cbn [converted_amount conversion_rate]. apply round2_error.
  - intros e. apply convert_currency_raises_500.
  - unfold convert_currency. rewrite !upper_idem.
    unfold try_except, bind.
    destruct (client_get _) as [resp|e1]; [|reflexivity].
    destruct (negb (status_code resp =? 200)); [reflexivity|].
    destruct (json resp) as [doc|e2]; [|reflexivity].
    destruct (default ∅ (rates doc) !! upper to_currency); reflexivity.
Qed.

Lemma convert_currency_outcome_witness :
  convert_currency service_up 100 "USD" "EUR"
  = convert_currency service_up 100 "usd" "eur"
  /\ forall e, convert_currency service_up 100 "usd" "xyz" = Raise e ->
               e = internal_server_error.
Proof.
  split.
  - exact (proj2 (proj2 (proj2
             (convert_currency_outcome service_up 100 "usd" "eur"
                eq_refl eq_refl)))).
  - exact (proj1 (proj2 (proj2
             (convert_currency_outcome service_up 100 "usd" "xyz"
                eq_refl eq_refl)))).
Defined.

End CurrencyMoreFacts.

(** ** Registration and login *)

Module AccountsFacts.
Import Exn Handlers Auth AuthFacts Accounts.
Local Open Scope exn_scope.

(** X28. Registration refuses a username that is taken, and otherwise an
    address that is taken, each with its own 400 and with the store
    untouched; otherwise it adds one user, active, with the name and the
    address of the request, the hash for the password and a key no stored
    user has, and one row of default preferences for that user. *)
Theorem register_user_outcome get_password_hash new db :
  let '(answer, db') := register_user get_password_hash new db in
  match answer with
  | Return a =>
    users db' = users db ++ [a]
    /\ username (user a) = new_username new
    /\ email a = new_email new
    /\ hashed_password (user a) = get_password_hash (password new)
    /\ is_active (user a) = Some true
    /\ (forall b, In b (users db) ->
                  username (user b) <> username (user a)
                  /\ email b <> email a /\ id (user b) <> id (user a))
    /\ exists pref,
         user_preferences db' = user_preferences db ++ [pref]
         /\ preference_user_id pref = id (user a)
         /\ default_currency pref = "USD"
  | Raise e =>
    db' = db
    /\ ((e = username_taken
         /\ exists b, In b (users db) /\ username (user b) = new_username new)
        \/ (e = email_taken
            /\ (exists b, In b (users db) /\ email b = new_email new)
            /\ forall b, In b (users db) ->
                         username (user b) <> new_username new))
  end.
Proof.
  unfold register_user.
  destruct (List.find (by_username (new_username new)) (users db))
    as [b|] eqn:Eu.
  - cbn. split; [reflexivity|]. left. split; [reflexivity|].
    apply List.find_some in Eu. destruct Eu as [Hin Hb].
    apply String.eqb_eq in Hb. eauto.
  - destruct (List.find (by_email (new_email new)) (users db))
      as [b|] eqn:Ee.
    + cbn. split; [reflexivity|]. right. split; [reflexivity|]. split.
      * apply List.find_some in Ee. destruct Ee as [Hin Hb].
        apply String.eqb_eq in Hb. eauto.
      * intros c Hc Hname. apply (List.find_none _ _ Eu) in Hc.
        unfold by_username in Hc. apply String.eqb_neq in Hc. contradiction.
    + cbn [users user_preferences user email username hashed_password
           is_active id].
      repeat (split; [reflexivity|]). split.
      * intros c Hc. split; [|split].
        -- apply (List.find_none _ _ Eu) in Hc.
           unfold by_username in Hc. now apply String.eqb_neq in Hc.
        -- apply (List.find_none _ _ Ee) in Hc.
           unfold by_email in Hc. now apply String.eqb_neq in Hc.
        -- unfold next_key.
           assert (Hle : forall l z, In z l -> z <= fold_right Z.max 0 l).
           { induction l as [|y l IH]; cbn; [tauto|].
             intros z [->|Hz]; [lia|]. specialize (IH z Hz). lia. }
           specialize (Hle (map (fun a => id (user a)) (users db))
                           (id (user c))
                           (in_map (fun a => id (user a)) _ _ Hc)).
           lia.
      * eexists. repeat split.
Qed.

Lemma login_cases verify_password settings name pass db now :
  match login_for_access_token verify_password settings name pass db now with
  | Return tok =>
    token_type tok = "bearer"
    /\ (exists a,
          List.find (by_username name) (users db) = Some a
          /\ verify_password pass (hashed_password (user a)) = true
          /\ username (user a) = name)
    /\ forall t, now <= t < now + 60 * access_token_expire_minutes settings ->
                 verify_token settings (access_token tok) t
                 = Return (Some (mk_TokenData (Some name)))
  | Raise e =>
    e = incorrect_login
    /\ (List.find (by_username name) (users db) = None
        \/ exists a, List.find (by_username name) (users db) = Some a
                     /\ verify_password pass (hashed_password (user a)) = false)
  end.
Proof.
  unfold login_for_access_token, authenticate_user.
  destruct (List.find (by_username name) (users db)) as [a|] eqn:Ef.
  - destruct (verify_password pass (hashed_password (user a))) eqn:Ev;
      cbn [negb reraise_http].
    + apply List.find_some in Ef as Hf. destruct Hf as [_ Hname].
      apply String.eqb_eq in Hname.
      cbn [token_type access_token]. split; [reflexivity|].
      split; [exists a; auto|].
      intros t Ht. rewrite Hname.
      refine (proj1 (TokenFacts.validates_before_expiry settings
                       {[ "sub" := ClaimStr name ]} name
                       (60 * access_token_expire_minutes settings) now t _ _) _).
      * apply lookup_singleton_eq.
      * lia.
      * lia.
    + cbn. split; [reflexivity|]. right. exists a. auto.
  - cbn. split; [reflexivity|]. now left.
Qed.

(** X29. Login answers with a bearer token exactly when the first stored
    user of that name has a hash the password verifies against, active or
    not; every failure, an unknown name as much as a wrong password, is the
    same 401. With a positive lifetime configured the token validates to
    the name of that user from the instant of issue until it expires. *)
Theorem login_outcome verify_password settings name pass db now :
  match login_for_access_token verify_password settings name pass db now with
  | Return tok =>
    token_type tok = "bearer"
    /\ (exists a,
          List.find (by_username name) (users db) = Some a
          /\ verify_password pass (hashed_password (user a)) = true
          /\ username (user a) = name)
    /\ forall t, now <= t < now + 60 * access_token_expire_minutes settings ->
                 verify_token settings (access_token tok) t
                 = Return (Some (mk_TokenData (Some name)))
  | Raise e =>
    e = incorrect_login
    /\ (List.find (by_username name) (users db) = None
        \/ exists a, List.find (by_username name) (users db) = Some a
                     /\ verify_password pass (hashed_password (user a)) = false)
  end.
Proof. exact (login_cases verify_password settings name pass db now). Qed.

(** X30. Login, then a request: with a positive lifetime configured, the
    token of a login resolves, until it expires, to the user that logged in
    when that user is not flagged inactive; for a user flagged inactive the
    login succeeds all the same and every request with its token is
    answered 401. *)
Theorem login_then_resolve verify_password settings name pass db now tok t :
  login_for_access_token verify_password settings name pass db now
  = Return tok ->
  now <= t < now + 60 * access_token_expire_minutes settings ->
  exists a,
    authenticate_user verify_password db name pass = Some a
    /\ resolve settings (access_token tok) (resolver_view db) t
       = if is_False (is_active (user a)) then Raise credentials_exception
         else Return (user a).
Proof.
  intros Hlogin Ht.
  pose proof (login_cases verify_password settings name pass db now) as H.
  rewrite Hlogin in H. destruct H as (_ & (a & Hfind & Hver & Hname) & Hvalid).
  exists a. split.
  - unfold authenticate_user. now rewrite Hfind, Hver.
  - specialize (Hvalid t Ht).
    assert (Hq : query_user_first (resolver_view db) (Some name) = Some (user a)).
    { unfold resolver_view. cbn [query_user_first].
      clear - Hfind. induction (users db) as [|x l IH]; [discriminate|].
      cbn in *. unfold by_username in Hfind at 1.
      destruct (String.eqb (username (user x)) name); [congruence|].
      now apply IH. }
    destruct (is_False (is_active (user a))) eqn:Ea.
    + unfold resolve, get_current_user. rewrite Hvalid. cbn.
      cbn in Hq. rewrite Hq, Ea. reflexivity.
    + apply (TokenFacts.resolve_returns_user settings _ _ t name); try assumption.
      intros Hf. rewrite Hf in Ea. discriminate.
Qed.

Lemma login_then_resolve_witness :
  exists a,
    authenticate_user toy_verify one_user "carol" "correct horse" = Some a
    /\ resolve default_settings
         (create_access_token default_settings
            {[ "sub" := ClaimStr "carol" ]} (Some 1800) 1000)
         (resolver_view one_user) 1001
       = if is_False (is_active (user a)) then Raise credentials_exception
         else Return (user a).
Proof.
  refine (login_then_resolve toy_verify default_settings "carol"
            "correct horse" one_user 1000
            {| access_token :=
                 create_access_token default_settings
                   {[ "sub" := ClaimStr "carol" ]} (Some 1800) 1000;
               token_type := "bearer" |} 1001 eq_refl _).
  split; [discriminate|reflexivity].
Defined.

End AccountsFacts.
